(** * Fusis: state store and VIP allocator

    A shallow embedding of the packages [ipam] (src/ipam/ipam.go) and
    [store] (src/store/store.go), with the properties of the allocator, of
    the key layout and of the watch loops proved over it.

    Go values are modelled as follows: a [string] is a [string]; a [[]byte]
    is a [list byte]; a slice is a [list]; a struct is a [Record]; a function
    that returns [error] returns an [option error] ([None] is Go's [nil]); a
    method with a pointer receiver takes the receiver and returns it
    updated. *)

From Stdlib Require Import ZArith Lia.
From Stdlib.Strings Require Import Byte.
From stdpp Require Import gmap strings list fin_maps pretty.

Open Scope Z_scope.
Open Scope string_scope.
Open Scope list_scope.

(** ** Errors

    The two sentinel errors of the repository, an error value coming from a
    library outside it, and [errors.Wrap] / [errors.Wrapf] (the formatted
    message is kept as the format's fixed prefix). *)
Inductive error : Type :=
  | ErrNoVipAvailable
  | ErrUnsupportedStore
  | ErrExternal (msg : string)
  | ErrWrap (cause : error) (msg : string).

(** A Go result pair [(value, error)] of which exactly one is set. *)
Inductive result (A : Type) : Type :=
  | Ok (a : A)
  | Err (e : error).
Arguments Ok {A} a.
Arguments Err {A} e.

(** ** Package api/types *)
Module types.

(** Modelled from the spec: the struct declarations of package [api/types]
    are not under src/.  Spec section 3 gives a Service an identity [ID], the
    assigned VIP [Host] (empty until allocated) and the scheduling
    attributes port, protocol and scheduler. *)
Record Service : Type := mkService {
  ID : string;
  Host : string;
  Port : Z;
  Protocol : string;
  Scheduler : string
}.

Definition GetId (svc : Service) : string := ID svc.

(** The value of [types.Service{}]. *)
Definition zero_Service : Service := mkService "" "" 0 "" "".

(** [s.Host = h] *)
Definition set_Host (s : Service) (h : string) : Service :=
  mkService (ID s) h (Port s) (Protocol s) (Scheduler s).

(** Modelled from the spec: a Destination has an identity scoped under its
    parent service, a CheckSpec is scoped under a [ServiceID] (spec section
    3); the code under src/ reads nothing else of them. *)
Record Destination : Type := mkDestination { DestinationID : string }.

Definition Destination_GetId (dst : Destination) : string := DestinationID dst.

Definition zero_Destination : Destination := mkDestination "".

Record CheckSpec : Type := mkCheckSpec { ServiceID : string }.

End types.

(** ** Package state *)
Module state.

(** Modelled from the spec: package [state] is not under src/.  The
    allocator only calls [GetServices], which returns the in-memory service
    snapshot (spec section 2). *)
Record State : Type := mkState { services : list types.Service }.

Definition GetServices (st : State) : list types.Service := services st.

End state.

(** ** Library github.com/mikioh/ipaddr

    The cursor type of the allocator.  The library documents [First] as
    "the start position on c", [Next] as "turns to the next position on c;
    it returns nil at the end on c" and [Set] as "sets the current position
    on c to pos"; a new cursor is positioned on the first address of its
    first prefix. *)
Module ipaddr.

(** An address is the integer the cursor counts with; [IP_String] is
    [net.IP.String] on an IPv4 address, the dotted decimal form. *)
Definition IP_String (ip : Z) : string :=
  pretty (ip / 16777216 mod 256) +:+ "." +:+
  pretty (ip / 65536 mod 256) +:+ "." +:+
  pretty (ip / 256 mod 256) +:+ "." +:+
  pretty (ip mod 256).

Record Position : Type := mkPosition { IP : Z }.

(** The cursor of the library, with its prefixes flattened into the
    sequence of their addresses in cursor order: [range_first] is the first
    address of the first prefix, [range_rest] the addresses after it, and
    [cur] the index of the current position.  A cursor is never empty
    ([ipaddr.Parse] fails on an empty list of prefixes). *)
Record Cursor : Type := mkCursor {
  range_first : Z;
  range_rest : list Z;
  cur : nat
}.

Definition addresses (c : Cursor) : list Z := range_first c :: range_rest c.

(** [NewCursor]: the position is the first address of the first prefix. *)
Definition NewCursor (first : Z) (rest : list Z) : Cursor := mkCursor first rest 0.

(** [c.First()] *)
Definition First (c : Cursor) : Position := mkPosition (range_first c).

(** [c.Pos()] *)
Definition Pos (c : Cursor) : Position :=
  mkPosition (nth (cur c) (addresses c) (range_first c)).

(** [c.Next()]: turns to the next position and returns it; returns nil at
    the end, where the cursor stays. *)
Definition Next (c : Cursor) : option Position * Cursor :=
  match addresses c !! S (cur c) with
  | Some a => (Some (mkPosition a), mkCursor (range_first c) (range_rest c) (S (cur c)))
  | None => (None, c)
  end.

Fixpoint index_of (a : Z) (l : list Z) : option nat :=
  match l with
  | [] => None
  | b :: l' => if Z.eqb a b then Some O else S <$> index_of a l'
  end.

(** [c.Set(pos)]: moves the cursor to [pos], or fails when [pos] is not a
    position of the cursor. *)
Definition Set_ (c : Cursor) (pos : Position) : Cursor * option error :=
  match index_of (IP pos) (addresses c) with
  | Some i => (mkCursor (range_first c) (range_rest c) i, None)
  | None => (c, Some (ErrExternal "position out of range"))
  end.

Section Parse.

(** The addresses of the prefixes listed by a string, in cursor order: the
    first one and those after it.  The reading of the CIDR notation is the
    library's. *)
Variable prefix_addresses : string -> result (Z * list Z).

(** [ipaddr.Parse] *)
Definition Parse (s : string) : result Cursor :=
  match prefix_addresses s with
  | Ok (first, rest) => Ok (NewCursor first rest)
  | Err e => Err e
  end.

End Parse.

End ipaddr.

(** ** Package config *)
Module config.

(** Modelled from the spec: package [config] is not under src/.  The two
    settings read by the code under src/ are the store's connection string
    and the address ranges of the allocator. *)
Record BalancerConfig : Type := mkBalancerConfig {
  StoreAddress : string;
  Ipam_Ranges : list string
}.

End config.

(** ** Package ipam (src/ipam/ipam.go) *)
Module ipam.
Import types.

Record Ipam : Type := mkIpam {
  rangeCursor : ipaddr.Cursor;
  state_ : state.State;
  config_ : config.BalancerConfig
}.

(** [New]; [None] is the run-time panic of [config.Ipam.Ranges[0]] on an
    empty list of ranges. *)
Definition New (prefix_addresses : string -> result (Z * list Z))
  (st : state.State) (cfg : config.BalancerConfig) : option (result Ipam) :=
  match config.Ipam_Ranges cfg with
  | [] => None
  | range0 :: _ =>
    Some match ipaddr.Parse prefix_addresses range0 with
         | Err err => Err err
         | Ok rangeCursor => Ok (mkIpam rangeCursor st cfg)
         end
  end.

(** [ipIsAssigned]: the loop over the snapshot's services. *)
Fixpoint ipIsAssigned_range (e : string) (services : list Service) : bool :=
  match services with
  | [] => false
  | a :: services' => if String.eqb (Host a) e then true else ipIsAssigned_range e services'
  end.

Definition ipIsAssigned (e : string) (st : state.State) : bool :=
  ipIsAssigned_range e (state.GetServices st).

(** [AllocateVIP]: one unit of [fuel] per call of [Next].  The result is
    the allocator and the service after the call, and the error returned;
    [None] is a loop that ran out of fuel. *)
Fixpoint AllocateVIP_loop (fuel : nat) (i : Ipam) (s : Service)
  : option (Ipam * Service * option error) :=
  match fuel with
  | O => None
  | S fuel' =>
    let '(pos, c) := ipaddr.Next (rangeCursor i) in
    let i' := mkIpam c (state_ i) (config_ i) in
    match pos with
    | None => Some (i', s, Some ErrNoVipAvailable)
    | Some p =>
      let assigned := ipIsAssigned (ipaddr.IP_String (ipaddr.IP p)) (state_ i') in
      if negb assigned then
        let c' := fst (ipaddr.Set_ c (ipaddr.First c)) in
        Some (mkIpam c' (state_ i) (config_ i), set_Host s (ipaddr.IP_String (ipaddr.IP p)), None)
      else AllocateVIP_loop fuel' i' s
    end
  end.

(** The loop calls [Next] at most once per address of the range and once
    more at its end. *)
Definition AllocateVIP (i : Ipam) (s : Service) : option (Ipam * Service * option error) :=
  AllocateVIP_loop (S (length (ipaddr.range_rest (rangeCursor i)))) i s.

(** [ReleaseVIP] *)
Definition ReleaseVIP (i : Ipam) (s : Service) : Ipam * option error := (i, None).

End ipam.

(** ** Library encoding/json *)
Module json.

(** [json.Marshal] and [json.Unmarshal] at one Go type.  [Unmarshal data v]
    is the value left in [v] by [json.Unmarshal(data, &v)] and the error it
    returns. *)
Class Codec (T : Type) : Type := {
  Marshal : T -> result (list byte);
  Unmarshal : list byte -> T -> T * option error
}.

End json.

(** ** Library net/url *)
Module url.

(** The two fields of [url.URL] that the store reads. *)
Record URL : Type := mkURL { Scheme : string; Host : string }.

End url.

(** ** Library github.com/docker/libkv *)
Module kv.

Record KVPair : Type := mkKVPair { Key : string; Value : list byte }.

(** Modelled from the spec: the backend behind [kv.Store] is outside the
    repository.  Spec sections 4.1 and 6 give it [put(key, bytes)] and
    [deleteSubtree(prefix)], a subtree delete being the deletion of a key
    and all keys sharing its prefix (glossary); failures surface to the
    caller.  [fault] is the error a backend that cannot serve answers every
    operation with. *)
Record Store : Type := mkStore {
  entries : gmap string (list byte);
  fault : option error
}.

Definition Put (s : Store) (key : string) (value : list byte) : Store * option error :=
  match fault s with
  | Some e => (s, Some e)
  | None => (mkStore (<[key := value]> (entries s)) None, None)
  end.

Definition DeleteTree (s : Store) (directory : string) : Store * option error :=
  match fault s with
  | Some e => (s, Some e)
  | None =>
    (mkStore (filter (fun p => String.prefix directory p.1 = false) (entries s)) None, None)
  end.

(** The names of the two backends, [store.CONSUL] and [store.ETCD]. *)
Definition CONSUL : string := "consul".
Definition ETCD : string := "etcd".

End kv.

(** ** Library github.com/docker/libkv, the registry of backends

    [AddStore] records a constructor under the name of a backend;
    [NewStore] calls the constructor recorded under the name it is given
    and fails for a name that has none. *)
Module libkv.

Definition Initialize : Type := list string -> result kv.Store.

Definition AddStore (initializers : gmap string Initialize) (backend : string)
  (init : Initialize) : gmap string Initialize :=
  <[backend := init]> initializers.

Definition NewStore (initializers : gmap string Initialize) (backend : string)
  (addrs : list string) : result kv.Store :=
  match initializers !! backend with
  | Some init => init addrs
  | None => Err (ErrExternal "Backend storage not supported yet, please choose one of")
  end.

End libkv.

(** ** Package store (src/store/store.go) *)
Module store.
Import types.

(** [registryStores], which [init] calls when the package is loaded;
    [consul_New] and [etcd_New] are the constructors of the two backends. *)
Definition registryStores (consul_New etcd_New : libkv.Initialize)
  (initializers : gmap string libkv.Initialize) : gmap string libkv.Initialize :=
  libkv.AddStore (libkv.AddStore initializers kv.CONSUL consul_New) kv.ETCD etcd_New.

(** A channel is known by its identity; [T] is the type of its messages. *)
Record Chan (T : Type) : Type := mkChan { chan_id : nat }.
Arguments mkChan {T} chan_id.
Arguments chan_id {T} c.

Record FusisStore : Type := mkFusisStore {
  kv_ : kv.Store;
  servicesChannels : list (Chan (list Service));
  destinationChannels : list (Chan (list Destination));
  checksChannels : list (Chan (list CheckSpec))
}.

Definition set_kv (s : FusisStore) (k : kv.Store) : FusisStore :=
  mkFusisStore k (servicesChannels s) (destinationChannels s) (checksChannels s).

Section New.

(** [url.Parse] and [libkv.NewStore], both outside the repository. *)
Variable url_Parse : string -> result url.URL.
Variable libkv_NewStore : string -> list string -> result kv.Store.

(** [New].  The two watch loops it starts run on their own and do not
    change the value returned. *)
Definition New (cfg : config.BalancerConfig) : result FusisStore :=
  match url_Parse (config.StoreAddress cfg) with
  | Err err => Err (ErrWrap err "error paring store address")
  | Ok u =>
    let scheme := url.Scheme u in
    if negb (String.eqb scheme "consul") && negb (String.eqb scheme "etcd") then
      Err ErrUnsupportedStore
    else
      match libkv_NewStore scheme [url.Host u] with
      | Err err => Err (ErrWrap err "Cannot create store consul")
      | Ok k => Ok (mkFusisStore k [] [] [])
      end
  end.

End New.

Definition GetKV (s : FusisStore) : kv.Store := kv_ s.

(** The tail shared by the add and delete operations: wrap the error of
    the backend, if any. *)
Definition wrap_kv (s : FusisStore) (r : kv.Store * option error) (msg : string)
  : FusisStore * option error :=
  match r with
  | (k, Some err) => (set_kv s k, Some (ErrWrap err msg))
  | (k, None) => (set_kv s k, None)
  end.

Section Operations.

Context {codec_Service : json.Codec Service}.
Context {codec_Destination : json.Codec Destination}.
Context {codec_CheckSpec : json.Codec CheckSpec}.

Definition AddService (s : FusisStore) (svc : Service) : FusisStore * option error :=
  let key := "fusis/services/" +:+ GetId svc +:+ "/config" in
  match json.Marshal svc with
  | Err err => (s, Some (ErrWrap err "error marshaling service"))
  | Ok value => wrap_kv s (kv.Put (kv_ s) key value) "error sending service to store"
  end.

Definition DeleteService (s : FusisStore) (svc : Service) : FusisStore * option error :=
  let key := "fusis/services/" +:+ GetId svc in
  wrap_kv s (kv.DeleteTree (kv_ s) key) "error trying to delete service".

Definition SubscribeServices (s : FusisStore) (updateCh : Chan (list Service)) : FusisStore :=
  mkFusisStore (kv_ s) (servicesChannels s ++ [updateCh]) (destinationChannels s)
    (checksChannels s).

Definition AddDestination (s : FusisStore) (svc : Service) (dst : Destination)
  : FusisStore * option error :=
  let key := "fusis/destinations/" +:+ GetId svc +:+ "/" +:+ Destination_GetId dst in
  match json.Marshal dst with
  | Err err => (s, Some (ErrWrap err "error marshaling destination"))
  | Ok value => wrap_kv s (kv.Put (kv_ s) key value) "error sending destination to store"
  end.

Definition DeleteDestination (s : FusisStore) (svc : Service) (dst : Destination)
  : FusisStore * option error :=
  let key := "fusis/destinations/" +:+ GetId svc +:+ "/" +:+ Destination_GetId dst in
  wrap_kv s (kv.DeleteTree (kv_ s) key) "error trying to delete destination".

Definition SubscribeDestinations (s : FusisStore) (updateCh : Chan (list Destination))
  : FusisStore :=
  mkFusisStore (kv_ s) (servicesChannels s) (destinationChannels s ++ [updateCh])
    (checksChannels s).


(** [AddCheck]; [id] is the value of [util.RandStr()]. *)
Definition AddCheck (s : FusisStore) (id : string) (spec : CheckSpec)
  : FusisStore * option error :=
  let key := "fusis/checks/" +:+ ServiceID spec +:+ "/" +:+ id in
  match json.Marshal spec with
  | Err err => (s, Some (ErrWrap err "error marshaling CheckSpec"))
  | Ok value => wrap_kv s (kv.Put (kv_ s) key value) "error sending CheckSpec to store"
  end.

(** *** The watch loops

    A send [ch <- v] is recorded as the event [Send ch v]; the events of a
    loop are listed in the order the loop performs them. *)
Inductive sent (T : Type) : Type := Send (ch : Chan (list T)) (v : list T).
Arguments Send {T} ch v.

(** [for _, ch := range chs { ch <- v }] *)
Fixpoint broadcast {T : Type} (chs : list (Chan (list T))) (v : list T) : list (sent T) :=
  match chs with
  | [] => []
  | ch :: chs' => Send ch v :: broadcast chs' v
  end.

(** The loop over the entries of one batch in [WatchServices]: [svcs] is
    the buffer, [log] the errors given to [log.Error]. *)
Fixpoint WatchServices_range (entries : list kv.KVPair) (svcs : list Service)
  (log : list error) : list Service * list error :=
  match entries with
  | [] => (svcs, log)
  | pair_ :: entries' =>
    let svc := zero_Service in
    let '(svc, err) := json.Unmarshal (kv.Value pair_) svc in
    let log := match err with Some e => log ++ [e] | None => log end in
    WatchServices_range entries' (svcs ++ [svc]) log
  end.

(** One iteration of the loop of [WatchServices] on the batch [entries]:
    the sends of its broadcast, the buffer it leaves and the errors
    logged.  [s] is the store when the lock is taken. *)
Definition WatchServices_cycle (s : FusisStore) (svcs : list Service)
  (entries : list kv.KVPair) : list (sent Service) * list Service * list error :=
  let '(svcs, log) := WatchServices_range entries svcs [] in
  (broadcast (servicesChannels s) svcs, [], log).

(** [WatchServices] on the batches [events] the watch produces, the
    subscribers being those of [s]. *)
Fixpoint WatchServices_loop (s : FusisStore) (svcs : list Service)
  (events : list (list kv.KVPair)) : list (sent Service) :=
  match events with
  | [] => []
  | entries :: events' =>
    let '(sends, svcs', _) := WatchServices_cycle s svcs entries in
    sends ++ WatchServices_loop s svcs' events'
  end.

Definition WatchServices (s : FusisStore) (events : list (list kv.KVPair))
  : list (sent Service) :=
  WatchServices_loop s [] events.

(** The loop over the entries of one batch in [WatchDestinations]; the
    error of a failed decode is wrapped and dropped. *)
Fixpoint WatchDestinations_range (entries : list kv.KVPair) (dsts : list Destination)
  : list Destination :=
  match entries with
  | [] => dsts
  | pair_ :: entries' =>
    let dst := zero_Destination in
    let '(dst, err) := json.Unmarshal (kv.Value pair_) dst in
    WatchDestinations_range entries' (dsts ++ [dst])
  end.

Definition WatchDestinations_cycle (s : FusisStore) (dsts : list Destination)
  (entries : list kv.KVPair) : list (sent Destination) * list Destination :=
  let dsts := WatchDestinations_range entries dsts in
  (broadcast (destinationChannels s) dsts, []).

Fixpoint WatchDestinations_loop (s : FusisStore) (dsts : list Destination)
  (events : list (list kv.KVPair)) : list (sent Destination) :=
  match events with
  | [] => []
  | entries :: events' =>
    let '(sends, dsts') := WatchDestinations_cycle s dsts entries in
    sends ++ WatchDestinations_loop s dsts' events'
  end.

Definition WatchDestinations (s : FusisStore) (events : list (list kv.KVPair))
  : list (sent Destination) :=
  WatchDestinations_loop s [] events.

End Operations.

Arguments Send {T} ch v.

End store.

(** * Vocabulary of the statements *)

Import types.

(** An IPv4 address from its four octets. *)
Definition ip4 (a b c d : Z) : Z := ((a * 256 + b) * 256 + c) * 256 + d.

(** The address [a] is the [Host] of a service of the snapshot. *)
Definition assigned (st : state.State) (a : Z) : Prop :=
  exists svc, svc ∈ state.GetServices st /\ Host svc = ipaddr.IP_String a.

(** The cursor of [c]'s range at its start, as [NewCursor] makes it. *)
Definition at_start (c : ipaddr.Cursor) : ipaddr.Cursor :=
  ipaddr.NewCursor (ipaddr.range_first c) (ipaddr.range_rest c).

(** The cursor of [c]'s range after [Next] has returned nil. *)
Definition at_end (c : ipaddr.Cursor) : ipaddr.Cursor :=
  ipaddr.mkCursor (ipaddr.range_first c) (ipaddr.range_rest c)
    (ipaddr.cur c `max` length (ipaddr.range_rest c)).

(** The addresses after the position of the cursor, in range order: those
    [Next] has still to return. *)
Definition after_cursor (c : ipaddr.Cursor) : list Z :=
  drop (S (ipaddr.cur c)) (ipaddr.addresses c).

(** The allocator [i] once the shared state has become [st]. *)
Definition with_state (i : ipam.Ipam) (st : state.State) : ipam.Ipam :=
  ipam.mkIpam (ipam.rangeCursor i) st (ipam.config_ i).

(** A configuration and three services for the examples. *)
Definition cfg0 : config.BalancerConfig :=
  config.mkBalancerConfig "consul://127.0.0.1:8500" ["10.0.0.0/30"].

Definition svc_on (id : string) (a : Z) : Service :=
  mkService id (ipaddr.IP_String a) 80 "tcp" "rr".

Definition new_svc : Service := mkService "web" "" 80 "tcp" "rr".

(** The allocators of the examples: fresh over 10.0.0.0 to 10.0.0.3 with
    10.0.0.1 taken, fresh over 10.0.0.0 to 10.0.0.2 with nothing taken,
    and fresh over 10.0.0.1 to 10.0.0.3 with every address taken. *)
Definition alloc_one_taken : ipam.Ipam :=
  ipam.mkIpam (ipaddr.NewCursor (ip4 10 0 0 0) [ip4 10 0 0 1; ip4 10 0 0 2; ip4 10 0 0 3])
    (state.mkState [svc_on "a" (ip4 10 0 0 1)]) cfg0.

Definition alloc_empty : ipam.Ipam :=
  ipam.mkIpam (ipaddr.NewCursor (ip4 10 0 0 0) [ip4 10 0 0 1; ip4 10 0 0 2])
    (state.mkState []) cfg0.

Definition alloc_full : ipam.Ipam :=
  ipam.mkIpam (ipaddr.NewCursor (ip4 10 0 0 1) [ip4 10 0 0 2; ip4 10 0 0 3])
    (state.mkState [svc_on "a" (ip4 10 0 0 1); svc_on "b" (ip4 10 0 0 2);
                    svc_on "c" (ip4 10 0 0 3)]) cfg0.

(** The snapshot of [alloc_full] once the service on 10.0.0.3 is gone. *)
Definition released : state.State :=
  state.mkState [svc_on "a" (ip4 10 0 0 1); svc_on "b" (ip4 10 0 0 2)].

(** A connection string cut at [://] into scheme and host, for the
    examples of [store.New]; a string without [://] does not parse. *)
Definition split_scheme (rawurl : string) : result url.URL :=
  match String.index 0 "://" rawurl with
  | Some n =>
    Ok (url.mkURL (String.substring 0 n rawurl)
          (String.substring (n + 3) (String.length rawurl - (n + 3)) rawurl))
  | None => Err (ErrExternal "missing protocol scheme")
  end.

(** A backend that is reachable and empty. *)
Definition empty_backend (backend : string) (addrs : list string) : result kv.Store :=
  Ok (kv.mkStore ∅ None).

(** A store that holds the config entry of the service web and one
    destination entry keyed under it. *)
Definition store_web : store.FusisStore :=
  store.mkFusisStore
    (kv.mkStore (<["fusis/services/web/config" := [x7b; x7d]]>
                 (<["fusis/destinations/web/d1" := [x7b; x7d]]> ∅)) None)
    [] [] [].

(** Two stand-ins for [encoding/json] in the examples: one that encodes
    every value as the empty object and leaves the target of a decode as
    it is, as the library does for a struct without exported fields, and
    one whose [Marshal] fails. *)
Definition empty_object_codec (T : Type) : json.Codec T :=
  {| json.Marshal := fun _ => Ok [x7b; x7d];
     json.Unmarshal := fun _ v => (v, None) |}.


(** A store with a reachable, empty backend and no subscriber. *)
Definition store_empty : store.FusisStore :=
  store.mkFusisStore (kv.mkStore ∅ None) [] [] [].

(** The identity of the channel of a send. *)
Definition receiver {T : Type} (e : store.sent T) : nat :=
  match e with store.Send c _ => store.chan_id c end.

(** The number of sends to the channel [ch] among [sends]. *)
Definition sends_to {T : Type} (ch : store.Chan (list T)) (sends : list (store.sent T)) : nat :=
  length (filter (fun e => receiver e = store.chan_id ch) sends).

(** The number of times the channel [ch] is registered in [chs]. *)
Definition registrations {T : Type} (ch : store.Chan T) (chs : list (store.Chan T)) : nat :=
  length (filter (fun c => store.chan_id c = store.chan_id ch) chs).

(** The reading of range strings in the examples: 10.0.0.0/30 is the four
    addresses 10.0.0.0 to 10.0.0.3, nothing else parses. *)
Definition slash30 (s : string) : result (Z * list Z) :=
  if String.eqb s "10.0.0.0/30"
  then Ok (ip4 10 0 0 0, [ip4 10 0 0 1; ip4 10 0 0 2; ip4 10 0 0 3])
  else Err (ErrExternal "invalid CIDR address").

(** A snapshot of two services that have no VIP yet. *)
Definition unallocated : state.State :=
  state.mkState [mkService "a" "" 80 "tcp" "rr"; mkService "b" "" 443 "tcp" "wlc"].

Arguments ipaddr.IP_String : simpl never.

(** * The allocator *)
Section Allocator.

Import ipam.

Lemma ipIsAssigned_range_true e services :
  ipIsAssigned_range e services = true <-> exists svc, svc ∈ services /\ Host svc = e.
Proof.
  induction services as [|a services IH]; simpl.
  - split; [discriminate | intros (svc & Hin & _); inversion Hin].
  - destruct (String.eqb_spec (Host a) e) as [Heq | Hne].
    + split; [intros _; exists a; split; [left | exact Heq] | reflexivity].
    + rewrite IH. split; intros (svc & Hin & Hsvc); exists svc; split; trivial.
      * now right.
      * inversion Hin; subst; [contradiction | assumption].
Qed.

Lemma ipIsAssigned_assigned st a :
  ipIsAssigned (ipaddr.IP_String a) st = true <-> assigned st a.
Proof. apply ipIsAssigned_range_true. Qed.

Lemma ipIsAssigned_free st a :
  ipIsAssigned (ipaddr.IP_String a) st = false <-> ~ assigned st a.
Proof.
  rewrite <- ipIsAssigned_assigned.
  destruct (ipIsAssigned (ipaddr.IP_String a) st); split; congruence.
Qed.

Lemma Set_First c : fst (ipaddr.Set_ c (ipaddr.First c)) = at_start c.
Proof.
  unfold ipaddr.Set_, ipaddr.First, ipaddr.addresses; simpl.
  now rewrite Z.eqb_refl.
Qed.

(** What a run of the loop that returns has done: either every address
    after the cursor is assigned and the service is untouched, or the
    addresses after the cursor split at the first unassigned one. *)
Lemma AllocateVIP_loop_inv fuel : forall f r k st cfg s i' s' res,
  AllocateVIP_loop fuel (mkIpam (ipaddr.mkCursor f r k) st cfg) s = Some (i', s', res) ->
  (res = Some ErrNoVipAvailable /\ s' = s /\
   i' = mkIpam (at_end (ipaddr.mkCursor f r k)) st cfg /\
   Forall (assigned st) (drop k r))
  \/
  (res = None /\ exists before a after,
     drop k r = before ++ a :: after /\ Forall (assigned st) before /\
     ~ assigned st a /\ s' = set_Host s (ipaddr.IP_String a) /\
     i' = mkIpam (ipaddr.mkCursor f r 0) st cfg).
Proof.
  induction fuel as [|fuel IH]; intros f r k st cfg s i' s' res H; [discriminate|].
  cbn [AllocateVIP_loop] in H. unfold ipaddr.Next, ipaddr.addresses in H.
  cbn [ipaddr.range_first ipaddr.range_rest ipaddr.cur rangeCursor state_ config_] in H.
  change ((f :: r) !! S k) with (r !! k) in H.
  destruct (r !! k) as [a|] eqn:Hk.
  - cbn [ipaddr.IP state_] in H.
    destruct (ipIsAssigned (ipaddr.IP_String a) st) eqn:Ha; cbn [negb] in H.
    + apply ipIsAssigned_assigned in Ha.
      pose proof (drop_S _ _ _ Hk) as Hd.
      apply lookup_lt_Some in Hk.
      apply IH in H as [(-> & -> & -> & Hall) | (-> & before & b & after & Hsplit & Hb & Hfree & -> & ->)].
      * left. repeat split; [| rewrite Hd; now constructor].
        unfold at_end; cbn. f_equal. f_equal. lia.
      * right. split; [reflexivity|]. exists (a :: before), b, after.
        rewrite Hd, Hsplit. repeat split; trivial. now constructor.
    + apply ipIsAssigned_free in Ha. rewrite Set_First in H. inversion H; subst.
      right. split; [reflexivity|]. exists [], a, (drop (S k) r).
      repeat split; trivial. now apply drop_S.
  - inversion H; subst. left. apply lookup_ge_None in Hk. repeat split.
    + unfold at_end; cbn. f_equal. f_equal. lia.
    + rewrite drop_ge by lia. constructor.
Qed.

(** The loop returns as soon as it has one unit of fuel more than there
    are addresses after the cursor. *)
Lemma AllocateVIP_loop_returns fuel : forall f r k st cfg s,
  (length (drop k r) < fuel)%nat ->
  is_Some (AllocateVIP_loop fuel (mkIpam (ipaddr.mkCursor f r k) st cfg) s).
Proof.
  induction fuel as [|fuel IH]; intros f r k st cfg s Hlen; [lia|].
  cbn [AllocateVIP_loop]. unfold ipaddr.Next, ipaddr.addresses.
  cbn [ipaddr.range_first ipaddr.range_rest ipaddr.cur rangeCursor state_ config_].
  change ((f :: r) !! S k) with (r !! k).
  destruct (r !! k) as [a|] eqn:Hk; [|eexists; reflexivity].
  cbn [ipaddr.IP state_].
  destruct (ipIsAssigned (ipaddr.IP_String a) st); cbn [negb]; [|eexists; reflexivity].
  apply IH. rewrite (drop_S _ _ _ Hk) in Hlen. simpl in Hlen. lia.
Qed.

Lemma AllocateVIP_returns i s : is_Some (AllocateVIP i s).
Proof.
  destruct i as [[f r k] st cfg]. unfold AllocateVIP.
  cbn [rangeCursor ipaddr.range_rest].
  apply AllocateVIP_loop_returns. rewrite length_drop. lia.
Qed.

Lemma AllocateVIP_inv i s i' s' res :
  AllocateVIP i s = Some (i', s', res) ->
  (res = Some ErrNoVipAvailable /\ s' = s /\
   i' = mkIpam (at_end (rangeCursor i)) (state_ i) (config_ i) /\
   Forall (assigned (state_ i)) (after_cursor (rangeCursor i)))
  \/
  (res = None /\ exists before a after,
     after_cursor (rangeCursor i) = before ++ a :: after /\
     Forall (assigned (state_ i)) before /\ ~ assigned (state_ i) a /\
     s' = set_Host s (ipaddr.IP_String a) /\
     i' = mkIpam (at_start (rangeCursor i)) (state_ i) (config_ i)).
Proof.
  destruct i as [[f r k] st cfg].
  unfold AllocateVIP, at_start, ipaddr.NewCursor, after_cursor.
  cbn [rangeCursor state_ config_ ipaddr.range_rest ipaddr.range_first ipaddr.cur
       ipaddr.addresses drop].
  apply AllocateVIP_loop_inv.
Qed.

(** The allocator that [New] returns has its cursor at the start of the
    range and reads the snapshot it was given. *)
Lemma New_at_start prefix_addresses st cfg i :
  New prefix_addresses st cfg = Some (Ok i) ->
  rangeCursor i = at_start (rangeCursor i) /\ state_ i = st.
Proof.
  unfold New, ipaddr.Parse. destruct (config.Ipam_Ranges cfg) as [|range0 ?]; [discriminate|].
  destruct (prefix_addresses range0) as [[first rest]|e]; intros H; inversion H.
  split; reflexivity.
Qed.

(** The loop stops at the first unassigned address after the cursor. *)
Lemma AllocateVIP_loop_scan before : forall fuel f r k st cfg s a after,
  drop k r = before ++ a :: after ->
  Forall (assigned st) before -> ~ assigned st a ->
  (length before < fuel)%nat ->
  AllocateVIP_loop fuel (mkIpam (ipaddr.mkCursor f r k) st cfg) s =
  Some (mkIpam (ipaddr.mkCursor f r 0) st cfg, set_Host s (ipaddr.IP_String a), None).
Proof.
  induction before as [|b before IH]; intros fuel f r k st cfg s a after Hd Hall Hfree Hlen;
    (destruct fuel as [|fuel]; [simpl in Hlen; lia|]);
    cbn [AllocateVIP_loop]; unfold ipaddr.Next, ipaddr.addresses;
    cbn [ipaddr.range_first ipaddr.range_rest ipaddr.cur rangeCursor state_ config_];
    change ((f :: r) !! S k) with (r !! k);
    assert (Hk : r !! k = head (drop k r))
      by (now rewrite head_lookup, lookup_drop, Nat.add_0_r);
    rewrite Hk, Hd; cbn [app head ipaddr.IP].
  - apply ipIsAssigned_free in Hfree. rewrite Hfree. cbn [negb].
    now rewrite Set_First.
  - inversion Hall as [|? ? Hb Hall']; subst.
    apply ipIsAssigned_assigned in Hb. rewrite Hb. cbn [negb].
    apply IH with (after := after); trivial; [|simpl in Hlen; lia].
    replace (S k) with (k + 1)%nat by lia. now rewrite <- drop_drop, Hd.
Qed.

(** With every address after the cursor assigned, the loop runs to the end
    of the range and fails. *)
Lemma AllocateVIP_loop_exhausted fuel : forall f r k st cfg s,
  Forall (assigned st) (drop k r) ->
  (length (drop k r) < fuel)%nat ->
  AllocateVIP_loop fuel (mkIpam (ipaddr.mkCursor f r k) st cfg) s =
  Some (mkIpam (at_end (ipaddr.mkCursor f r k)) st cfg, s, Some ErrNoVipAvailable).
Proof.
  intros f r k st cfg s Hall Hlen.
  destruct (AllocateVIP_loop_returns fuel f r k st cfg s Hlen) as [[[i' s'] res] H].
  rewrite H.
  apply AllocateVIP_loop_inv in H
    as [(-> & -> & -> & _) | (_ & before & a & after & Hd & _ & Hfree & _)];
    [reflexivity|].
  rewrite Hd in Hall. apply Forall_app in Hall as [_ Hall].
  inversion Hall; contradiction.
Qed.

Ltac by_scan :=
  first [ apply ipIsAssigned_assigned; vm_compute; reflexivity
        | apply ipIsAssigned_free; vm_compute; reflexivity ].

(** [AllocateVIP] on an allocator whose addresses after the cursor split
    at their first unassigned one. *)
Lemma AllocateVIP_scan i s before a after :
  after_cursor (rangeCursor i) = before ++ a :: after ->
  Forall (assigned (state_ i)) before ->
  ~ assigned (state_ i) a ->
  AllocateVIP i s =
  Some (mkIpam (at_start (rangeCursor i)) (state_ i) (config_ i),
        set_Host s (ipaddr.IP_String a), None).
Proof.
  destruct i as [[f r k] st cfg]. unfold after_cursor, AllocateVIP, at_start.
  cbn [rangeCursor state_ config_ ipaddr.range_rest ipaddr.range_first ipaddr.cur
       ipaddr.addresses drop].
  intros Hd Hall Hfree.
  apply AllocateVIP_loop_scan with (before := before) (after := after); trivial.
  assert (Hlen : (length (before ++ a :: after) <= length r)%nat)
    by (rewrite <- Hd, length_drop; lia).
  rewrite length_app in Hlen. simpl in Hlen. lia.
Qed.

(** C3, as amended: for every snapshot and every position of the cursor,
    when [a] is the first address after the cursor's position (in range
    order) that is not the [Host] of any known service, [AllocateVIP]
    assigns [a] to the service, puts the cursor back to the start of the
    range and returns success.  The position of a cursor at range start is
    the range's first address, which is therefore never a candidate. *)
Theorem C3_AllocateVIP_first_free_after_cursor i s before a after :
  after_cursor (rangeCursor i) = before ++ a :: after ->
  Forall (assigned (state_ i)) before ->
  ~ assigned (state_ i) a ->
  AllocateVIP i s =
  Some (mkIpam (at_start (rangeCursor i)) (state_ i) (config_ i),
        set_Host s (ipaddr.IP_String a), None).
Proof. apply AllocateVIP_scan. Qed.

(** Range 10.0.0.0 to 10.0.0.3 with 10.0.0.1 taken: a new service gets
    10.0.0.2. *)
Lemma C3_witness :
  AllocateVIP alloc_one_taken new_svc =
  Some (alloc_one_taken, set_Host new_svc "10.0.0.2", None).
Proof.
  apply (C3_AllocateVIP_first_free_after_cursor alloc_one_taken new_svc
           [ip4 10 0 0 1] (ip4 10 0 0 2) [ip4 10 0 0 3]).
  - reflexivity.
  - constructor; [by_scan | constructor].
  - by_scan.
Defined.

(** C3 as stated fails on two inputs.  On a fresh allocator over 10.0.0.0
    to 10.0.0.2 and an empty snapshot, the first address of the range is
    unassigned and the service gets 10.0.0.1.  After a call that failed on
    a full range, 10.0.0.2 is released, and the next call fails although
    an address of the range is unassigned. *)
Lemma C3_counterexample :
  (ipaddr.range_first (rangeCursor alloc_empty) = ip4 10 0 0 0 /\
   ~ assigned (state_ alloc_empty) (ip4 10 0 0 0) /\
   AllocateVIP alloc_empty new_svc = Some (alloc_empty, set_Host new_svc "10.0.0.1", None) /\
   "10.0.0.1" <> ipaddr.IP_String (ip4 10 0 0 0))
  /\
  (exists stale,
     AllocateVIP alloc_full new_svc = Some (stale, new_svc, Some ErrNoVipAvailable) /\
     ip4 10 0 0 3 ∈ ipaddr.addresses (rangeCursor stale) /\
     ~ assigned released (ip4 10 0 0 3) /\
     AllocateVIP (with_state stale released) new_svc =
       Some (with_state stale released, new_svc, Some ErrNoVipAvailable)).
Proof.
  split.
  - split; [reflexivity|].
    split; [by_scan | split; [vm_compute; reflexivity | vm_compute; discriminate]].
  - eexists. split; [vm_compute; reflexivity|].
    split; [cbn; set_solver|].
    split; [by_scan | vm_compute; reflexivity].
Qed.

(** The scenario of the spec's section 8: range 10.0.0.1 to 10.0.0.3 with
    10.0.0.1 taken; a new service gets 10.0.0.2, once it is in the
    snapshot a second one gets 10.0.0.3, and a third one gets
    [ErrNoVipAvailable]. *)
Example scenario_three_allocations :
  let i0 := mkIpam (ipaddr.NewCursor (ip4 10 0 0 1) [ip4 10 0 0 2; ip4 10 0 0 3])
              (state.mkState [svc_on "a" (ip4 10 0 0 1)]) cfg0 in
  let st1 := state.mkState [svc_on "a" (ip4 10 0 0 1); svc_on "b" (ip4 10 0 0 2)] in
  let st2 := state.mkState [svc_on "a" (ip4 10 0 0 1); svc_on "b" (ip4 10 0 0 2);
                            svc_on "c" (ip4 10 0 0 3)] in
  AllocateVIP i0 new_svc = Some (i0, set_Host new_svc "10.0.0.2", None) /\
  AllocateVIP (with_state i0 st1) new_svc =
    Some (with_state i0 st1, set_Host new_svc "10.0.0.3", None) /\
  AllocateVIP (with_state i0 st2) new_svc =
    Some (mkIpam (at_end (rangeCursor i0)) st2 cfg0, new_svc, Some ErrNoVipAvailable).
Proof. repeat split; vm_compute; reflexivity. Qed.

(** C6: when every address of the range is the [Host] of a service of the
    snapshot, [AllocateVIP] returns [ErrNoVipAvailable]; the service is
    untouched and the cursor is left at the end of the range. *)
Theorem C6_AllocateVIP_exhausted i s :
  (forall a, a ∈ ipaddr.addresses (rangeCursor i) -> assigned (state_ i) a) ->
  AllocateVIP i s =
  Some (mkIpam (at_end (rangeCursor i)) (state_ i) (config_ i), s, Some ErrNoVipAvailable).
Proof.
  destruct i as [[f r k] st cfg]. unfold AllocateVIP.
  cbn [rangeCursor state_ config_ ipaddr.range_rest ipaddr.addresses ipaddr.range_first].
  intros Hall. apply AllocateVIP_loop_exhausted.
  - apply Forall_forall. intros a Ha. apply Hall. right.
    rewrite <- (take_drop k r). apply elem_of_app. now right.
  - rewrite length_drop. lia.
Qed.

(** A range of three addresses held by three services. *)
Lemma C6_witness :
  exists i', AllocateVIP alloc_full new_svc = Some (i', new_svc, Some ErrNoVipAvailable).
Proof.
  eexists.
  apply (C6_AllocateVIP_exhausted alloc_full new_svc).
  intros a Ha. cbn in Ha.
  repeat (apply elem_of_cons in Ha as [-> | Ha]; [by_scan|]).
  inversion Ha.
Defined.

(** C7: when [AllocateVIP] succeeds, the address it has assigned is not the
    [Host] of any service of the snapshot. *)
Theorem C7_AllocateVIP_exclusion i s i' s' :
  AllocateVIP i s = Some (i', s', None) ->
  forall svc, svc ∈ state.GetServices (state_ i) -> Host svc <> Host s'.
Proof.
  intros H svc Hin Heq.
  apply AllocateVIP_inv in H
    as [(Hres & _) | (_ & before & a & after & _ & _ & Hfree & -> & _)];
    [discriminate|].
  apply Hfree. exists svc. split; [exact Hin | exact Heq].
Qed.

Lemma C7_witness :
  AllocateVIP alloc_one_taken new_svc =
    Some (alloc_one_taken, set_Host new_svc "10.0.0.2", None) /\
  Host (svc_on "a" (ip4 10 0 0 1)) <> "10.0.0.2".
Proof.
  assert (H : AllocateVIP alloc_one_taken new_svc =
              Some (alloc_one_taken, set_Host new_svc "10.0.0.2", None))
    by (vm_compute; reflexivity).
  split; [exact H|].
  apply (C7_AllocateVIP_exclusion alloc_one_taken new_svc alloc_one_taken
           (set_Host new_svc "10.0.0.2") H).
  left.
Defined.

(** C10: when [AllocateVIP] returns [ErrNoVipAvailable], the service is as
    it was before the call, its [Host] included. *)
Theorem C10_AllocateVIP_failure_keeps_service i s i' s' :
  AllocateVIP i s = Some (i', s', Some ErrNoVipAvailable) ->
  s' = s /\ Host s' = Host s.
Proof.
  intros H.
  apply AllocateVIP_inv in H as [(_ & -> & _) | (Hres & _)]; [|discriminate].
  split; reflexivity.
Qed.

Lemma C10_witness :
  exists i' s',
    AllocateVIP alloc_full (svc_on "old" (ip4 192 168 0 7)) =
      Some (i', s', Some ErrNoVipAvailable) /\
    Host s' = "192.168.0.7".
Proof.
  destruct (AllocateVIP alloc_full (svc_on "old" (ip4 192 168 0 7)))
    as [[[i' s'] [[| | |]|]]|] eqn:H; try (vm_compute in H; discriminate H).
  exists i', s'. split; [reflexivity|].
  destruct (C10_AllocateVIP_failure_keeps_service alloc_full _ i' s' H) as [_ ->].
  vm_compute. reflexivity.
Defined.

(** C8, as amended: a successful [AllocateVIP] leaves the cursor at the
    range's first address; consequently, on an allocator whose cursor is at
    range start, a second call with the snapshot unchanged succeeds as
    well and assigns the same address, and that address is the first
    unassigned one after the range's first address. *)
Theorem C8_AllocateVIP_reset_and_determinism i s1 s2 i1 s1' :
  AllocateVIP i s1 = Some (i1, s1', None) ->
  rangeCursor i1 = at_start (rangeCursor i) /\
  ipaddr.Pos (rangeCursor i1) = ipaddr.First (rangeCursor i) /\
  state_ i1 = state_ i /\
  (rangeCursor i = at_start (rangeCursor i) ->
   exists before a after,
     ipaddr.range_rest (rangeCursor i) = before ++ a :: after /\
     Forall (assigned (state_ i)) before /\ ~ assigned (state_ i) a /\
     Host s1' = ipaddr.IP_String a /\
     AllocateVIP i1 s2 = Some (i1, set_Host s2 (ipaddr.IP_String a), None)).
Proof.
  intros H.
  apply AllocateVIP_inv in H
    as [(Hres & _) | (_ & before & a & after & Hd & Hall & Hfree & -> & ->)];
    [discriminate|].
  cbn [rangeCursor state_]. repeat split.
  intros Hstart. exists before, a, after.
  assert (Hrest : ipaddr.range_rest (rangeCursor i) = before ++ a :: after).
  { rewrite <- Hd, Hstart. reflexivity. }
  repeat split; trivial.
  rewrite (AllocateVIP_scan (mkIpam (at_start (rangeCursor i)) (state_ i) (config_ i))
             s2 before a after); trivial.
Qed.

(** A call that fails leaves the cursor at the end of the range, where
    every later call fails at once, whatever the snapshot has become. *)
Lemma AllocateVIP_failure_repeats i s1 i1 s1' e st s2 :
  AllocateVIP i s1 = Some (i1, s1', Some e) ->
  AllocateVIP (with_state i1 st) s2 = Some (with_state i1 st, s2, Some ErrNoVipAvailable).
Proof.
  intros H.
  apply AllocateVIP_inv in H as [(_ & _ & -> & _) | (Hres & _)]; [|discriminate].
  destruct i as [[f r k] st0 cfg]. unfold AllocateVIP, with_state, at_end.
  cbn [rangeCursor state_ config_ ipaddr.range_rest ipaddr.range_first ipaddr.cur].
  cbn [AllocateVIP_loop]. unfold ipaddr.Next, ipaddr.addresses.
  cbn [ipaddr.range_first ipaddr.range_rest ipaddr.cur rangeCursor].
  change ((f :: r) !! S (k `max` length r)%nat) with (r !! (k `max` length r)%nat).
  rewrite (proj2 (lookup_ge_None r (k `max` length r)%nat)) by lia.
  reflexivity.
Qed.

(** Two calls in a row on a fresh allocator over 10.0.0.0 to 10.0.0.3
    with 10.0.0.1 taken: both assign 10.0.0.2. *)
Lemma C8_witness :
  AllocateVIP alloc_one_taken new_svc =
    Some (alloc_one_taken, set_Host new_svc "10.0.0.2", None) /\
  rangeCursor alloc_one_taken = at_start (rangeCursor alloc_one_taken) /\
  exists a, ipaddr.IP_String a = "10.0.0.2" /\
    AllocateVIP alloc_one_taken (svc_on "other" 0) =
      Some (alloc_one_taken, set_Host (svc_on "other" 0) (ipaddr.IP_String a), None).
Proof.
  assert (H : AllocateVIP alloc_one_taken new_svc =
              Some (alloc_one_taken, set_Host new_svc "10.0.0.2", None))
    by (vm_compute; reflexivity).
  split; [exact H|]. split; [reflexivity|].
  destruct (C8_AllocateVIP_reset_and_determinism alloc_one_taken new_svc
              (svc_on "other" 0) alloc_one_taken _ H)
    as (_ & _ & _ & Hsecond).
  destruct (Hsecond eq_refl) as (before & a & after & _ & _ & _ & Ha & Hcall).
  exists a. split; [symmetry; exact Ha | exact Hcall].
Defined.

(** C8 as stated fails on a fresh allocator over 10.0.0.0 to 10.0.0.2 with
    an empty snapshot: two calls in a row both assign 10.0.0.1, and the
    first free address of the range is 10.0.0.0. *)
Lemma C8_counterexample :
  exists i1 s1 i2 s2,
    rangeCursor alloc_empty = at_start (rangeCursor alloc_empty) /\
    AllocateVIP alloc_empty new_svc = Some (i1, s1, None) /\
    AllocateVIP i1 new_svc = Some (i2, s2, None) /\
    Host s1 = "10.0.0.1" /\ Host s2 = "10.0.0.1" /\
    ipaddr.range_first (rangeCursor alloc_empty) = ip4 10 0 0 0 /\
    ~ assigned (state_ alloc_empty) (ip4 10 0 0 0) /\
    Host s1 <> ipaddr.IP_String (ip4 10 0 0 0).
Proof.
  exists alloc_empty, (set_Host new_svc "10.0.0.1"), alloc_empty, (set_Host new_svc "10.0.0.1").
  repeat split; try (vm_compute; reflexivity); [by_scan | vm_compute; discriminate].
Qed.

End Allocator.

(** * The store *)
Section Store.

Import store.

Context {codec_Service : json.Codec Service}.
Context {codec_Destination : json.Codec Destination}.

Lemma prefix_append p q : String.prefix p (p +:+ q) = true.
Proof.
  induction p as [|c p IH]; simpl; [now destruct q|].
  destruct (Ascii.ascii_dec c c); [exact IH | contradiction].
Qed.

Lemma prefix_split p k : String.prefix p k = true -> exists q, k = p +:+ q.
Proof.
  revert k. induction p as [|c p IH]; intros k H.
  - exists k. reflexivity.
  - destruct k as [|d k]; simpl in H; [discriminate|].
    destruct (Ascii.ascii_dec c d) as [->|]; [|discriminate].
    destruct (IH k H) as [q ->]. exists q. reflexivity.
Qed.

(** No key of the destinations tree lies under a key of the services
    tree. *)
Lemma services_destinations_apart id k :
  String.prefix "fusis/destinations/" k = true ->
  String.prefix ("fusis/services/" +:+ id) k = false.
Proof.
  intros H. apply prefix_split in H as [q ->]. reflexivity.
Qed.

Lemma broadcast_map {T} (chs : list (Chan (list T))) (v : list T) :
  broadcast chs v = map (fun ch => Send ch v) chs.
Proof. induction chs as [|ch chs IH]; simpl; [reflexivity | now rewrite IH]. Qed.

Lemma WatchServices_range_map entries : forall svcs log,
  fst (WatchServices_range entries svcs log) =
  svcs ++ map (fun p => fst (json.Unmarshal (kv.Value p) zero_Service)) entries.
Proof.
  induction entries as [|p entries IH]; intros svcs log; simpl.
  - now rewrite app_nil_r.
  - destruct (json.Unmarshal (kv.Value p) zero_Service) as [svc err]. simpl.
    rewrite IH, <- app_assoc. reflexivity.
Qed.

Lemma WatchDestinations_range_map entries : forall dsts,
  WatchDestinations_range entries dsts =
  dsts ++ map (fun p => fst (json.Unmarshal (kv.Value p) zero_Destination)) entries.
Proof.
  induction entries as [|p entries IH]; intros dsts; simpl.
  - now rewrite app_nil_r.
  - destruct (json.Unmarshal (kv.Value p) zero_Destination) as [dst err]. simpl.
    rewrite IH, <- app_assoc. reflexivity.
Qed.

Lemma servicesChannels_subscribed chs : forall s,
  servicesChannels (foldl SubscribeServices s chs) = servicesChannels s ++ chs.
Proof.
  induction chs as [|ch chs IH]; intros s; simpl.
  - now rewrite app_nil_r.
  - rewrite IH. simpl. now rewrite <- app_assoc.
Qed.

Lemma destinationChannels_subscribed chs : forall s,
  destinationChannels (foldl SubscribeDestinations s chs) = destinationChannels s ++ chs.
Proof.
  induction chs as [|ch chs IH]; intros s; simpl.
  - now rewrite app_nil_r.
  - rewrite IH. simpl. now rewrite <- app_assoc.
Qed.

Lemma watch_cycle_sends (s : FusisStore) (entries : list kv.KVPair) :
  fst (fst (WatchServices_cycle s [] entries)) =
    broadcast (servicesChannels s)
      (map (fun p => fst (json.Unmarshal (kv.Value p) zero_Service)) entries) /\
  fst (WatchDestinations_cycle s [] entries) =
    broadcast (destinationChannels s)
      (map (fun p => fst (json.Unmarshal (kv.Value p) zero_Destination)) entries).
Proof.
  unfold WatchServices_cycle, WatchDestinations_cycle. split.
  - pose proof (WatchServices_range_map entries [] []) as H.
    destruct (WatchServices_range entries [] []) as [svcs log]. simpl in *. now rewrite H.
  - now rewrite WatchDestinations_range_map.
Qed.

(** C1: a watch cycle puts one element in its snapshot for every raw entry
    of the batch, in order: the value [json.Unmarshal] has left in a zero
    entity, whether it returned an error or not.  An entry whose decode
    fails is therefore not skipped, and the other entries of the batch are
    decoded all the same. *)
Theorem C1_watch_cycle_keeps_every_entry (s : FusisStore) (entries : list kv.KVPair) :
  fst (fst (WatchServices_cycle s [] entries)) =
    broadcast (servicesChannels s)
      (map (fun p => fst (json.Unmarshal (kv.Value p) zero_Service)) entries) /\
  fst (WatchDestinations_cycle s [] entries) =
    broadcast (destinationChannels s)
      (map (fun p => fst (json.Unmarshal (kv.Value p) zero_Destination)) entries).
Proof. apply watch_cycle_sends. Qed.

(** A batch of one entry whose decode fails: the snapshot sent to the
    subscribers holds the entity the failed decode has left, and the error
    is logged. *)
Lemma WatchServices_cycle_failed_entry (s : FusisStore) key value left_over e :
  json.Unmarshal value zero_Service = (left_over, Some e) ->
  WatchServices_cycle s [] [kv.mkKVPair key value] =
  (broadcast (servicesChannels s) [left_over], [], [e]).
Proof. intros H. unfold WatchServices_cycle. simpl. rewrite H. reflexivity. Qed.

(** The buffer is empty again after every cycle, so the sends of a cycle
    do not depend on the batches before it. *)
Lemma WatchServices_loop_cons (s : FusisStore) entries events :
  WatchServices s (entries :: events) =
  fst (fst (WatchServices_cycle s [] entries)) ++ WatchServices s events.
Proof.
  unfold WatchServices. simpl.
  destruct (WatchServices_cycle s [] entries) as [[sends svcs'] log] eqn:H.
  unfold WatchServices_cycle in H.
  destruct (WatchServices_range entries [] []) as [svcs log']. inversion H. reflexivity.
Qed.

(** C5: the channels subscribed, in the order [chs], before the broadcast
    of a watch cycle are each sent one and the same snapshot by that
    cycle, in the order of their registration, after the channels that
    were registered before them. *)
Theorem C5_fan_out_same_snapshot (s0 : FusisStore)
  (chs : list (Chan (list Service))) (chd : list (Chan (list Destination)))
  (entries : list kv.KVPair) :
  (exists snapshot,
     fst (fst (WatchServices_cycle (foldl SubscribeServices s0 chs) [] entries)) =
     map (fun ch => Send ch snapshot) (servicesChannels s0 ++ chs)) /\
  (exists snapshot,
     fst (WatchDestinations_cycle (foldl SubscribeDestinations s0 chd) [] entries) =
     map (fun ch => Send ch snapshot) (destinationChannels s0 ++ chd)).
Proof.
  destruct (watch_cycle_sends (foldl SubscribeServices s0 chs) entries) as [Hs _].
  destruct (watch_cycle_sends (foldl SubscribeDestinations s0 chd) entries) as [_ Hd].
  split; eexists.
  - rewrite Hs, broadcast_map, servicesChannels_subscribed. reflexivity.
  - rewrite Hd, broadcast_map, destinationChannels_subscribed. reflexivity.
Qed.

(** The key layout of the add operations: a successful [AddService] has
    written the encoding of the service at [fusis/services/{ID}/config], a
    successful [AddDestination] that of the destination at
    [fusis/destinations/{service ID}/{destination ID}]. *)
Lemma AddService_key s svc s' :
  AddService s svc = (s', None) ->
  exists value, json.Marshal svc = Ok value /\
    kv.entries (kv_ s') = <["fusis/services/" +:+ GetId svc +:+ "/config" := value]>
                            (kv.entries (kv_ s)).
Proof.
  unfold AddService, wrap_kv, kv.Put.
  destruct (json.Marshal svc) as [value|e]; [|discriminate].
  destruct (kv.fault (kv_ s)); intros H; inversion H. exists value. split; reflexivity.
Qed.

Lemma AddDestination_key s svc dst s' :
  AddDestination s svc dst = (s', None) ->
  exists value, json.Marshal dst = Ok value /\
    kv.entries (kv_ s') =
    <["fusis/destinations/" +:+ GetId svc +:+ "/" +:+ Destination_GetId dst := value]>
      (kv.entries (kv_ s)).
Proof.
  unfold AddDestination, wrap_kv, kv.Put.
  destruct (json.Marshal dst) as [value|e]; [|discriminate].
  destruct (kv.fault (kv_ s)); intros H; inversion H. exists value. split; reflexivity.
Qed.

(** What a successful [DeleteService] leaves in the backend. *)
Lemma DeleteService_entries s svc s' :
  DeleteService s svc = (s', None) ->
  kv.entries (kv_ s') =
  filter (fun p => String.prefix ("fusis/services/" +:+ GetId svc) p.1 = false)
    (kv.entries (kv_ s)).
Proof.
  unfold DeleteService, wrap_kv, kv.DeleteTree.
  destruct (kv.fault (kv_ s)); intros H; inversion H. reflexivity.
Qed.

(** C2, as amended: after a successful [DeleteService] the store holds no
    key under [fusis/services/{ID}], so not the config entry of the
    service, and every entry of the destinations tree is as it was: those
    keyed under the ID of the deleted service as well as those keyed under
    the ID of any other service. *)
Theorem C2_DeleteService_scope s svc s' :
  DeleteService s svc = (s', None) ->
  kv.entries (kv_ s') !! ("fusis/services/" +:+ GetId svc +:+ "/config") = None /\
  (forall k, String.prefix ("fusis/services/" +:+ GetId svc) k = true ->
             kv.entries (kv_ s') !! k = None) /\
  (forall k, String.prefix "fusis/destinations/" k = true ->
             kv.entries (kv_ s') !! k = kv.entries (kv_ s) !! k).
Proof.
  intros H. apply DeleteService_entries in H.
  assert (Hgone : forall k, String.prefix ("fusis/services/" +:+ GetId svc) k = true ->
                            kv.entries (kv_ s') !! k = None).
  { intros k Hk. rewrite H. apply map_lookup_filter_None. right.
    intros x _. simpl. rewrite Hk. discriminate. }
  split; [|split; [exact Hgone|]].
  - apply Hgone.
    replace ("fusis/services/" +:+ GetId svc +:+ "/config")
      with (("fusis/services/" +:+ GetId svc) +:+ "/config"); [apply prefix_append|].
    simpl. reflexivity.
  - intros k Hk. rewrite H, map_lookup_filter.
    destruct (kv.entries (kv_ s) !! k) as [x|]; simpl; [|reflexivity].
    rewrite option_guard_True; [reflexivity|].
    simpl. now apply services_destinations_apart.
Qed.

Lemma C2_witness :
  exists s',
    DeleteService store_web (mkService "web" "10.0.0.1" 80 "tcp" "rr") = (s', None) /\
    kv.entries (kv_ s') !! "fusis/services/web/config" = None /\
    kv.entries (kv_ s') !! "fusis/destinations/web/d1" =
      kv.entries (kv_ store_web) !! "fusis/destinations/web/d1".
Proof.
  destruct (DeleteService store_web (mkService "web" "10.0.0.1" 80 "tcp" "rr"))
    as [s' [e|]] eqn:H; [vm_compute in H; discriminate H|].
  exists s'. split; [reflexivity|].
  destruct (C2_DeleteService_scope store_web _ s' H) as (Hconfig & _ & Hdst).
  split; [exact Hconfig|]. apply Hdst. reflexivity.
Defined.

(** A destination added under a service is still in the store after the
    service has been deleted. *)
Lemma destination_survives_DeleteService s svc dst s1 s2 :
  AddDestination s svc dst = (s1, None) ->
  DeleteService s1 svc = (s2, None) ->
  exists value, json.Marshal dst = Ok value /\
    kv.entries (kv_ s2) !! ("fusis/destinations/" +:+ GetId svc +:+ "/" +:+ Destination_GetId dst)
    = Some value.
Proof.
  intros Hadd Hdel. apply AddDestination_key in Hadd as (value & Hm & Hput).
  apply DeleteService_entries in Hdel.
  exists value. split; [exact Hm|].
  rewrite Hdel. apply map_lookup_filter_Some. split.
  - rewrite Hput. apply lookup_insert_eq.
  - apply (services_destinations_apart (GetId svc)). apply prefix_append.
Qed.

(** C2 as stated fails on a store that holds the config entry of the
    service web and a destination entry keyed under web: [DeleteService]
    succeeds and the destination entry is still there. *)
Lemma C2_counterexample :
  exists s',
    DeleteService store_web (mkService "web" "10.0.0.1" 80 "tcp" "rr") = (s', None) /\
    kv.entries (kv_ s') !! "fusis/destinations/web/d1" = Some [x7b; x7d].
Proof.
  eexists. split; [reflexivity|]. vm_compute. reflexivity.
Qed.

End Store.

(** * Construction of the store *)
Section Construction.

Import store.

Variable url_Parse : string -> result url.URL.
Variable libkv_NewStore : string -> list string -> result kv.Store.

(** C9: for a connection string that parses with a scheme other than
    consul and etcd, [New] fails with [ErrUnsupportedStore]; with the
    scheme consul or etcd it does not fail with that error, whatever the
    backend answers. *)
Theorem C9_New_unsupported_scheme (cfg : config.BalancerConfig) (u : url.URL) :
  url_Parse (config.StoreAddress cfg) = Ok u ->
  (url.Scheme u <> "consul" -> url.Scheme u <> "etcd" ->
   New url_Parse libkv_NewStore cfg = Err ErrUnsupportedStore) /\
  (url.Scheme u = "consul" \/ url.Scheme u = "etcd" ->
   New url_Parse libkv_NewStore cfg <> Err ErrUnsupportedStore).
Proof.
  intros Hparse. unfold New. rewrite Hparse. split.
  - intros Hc He.
    destruct (String.eqb_spec (url.Scheme u) "consul"); [contradiction|].
    destruct (String.eqb_spec (url.Scheme u) "etcd"); [contradiction|].
    reflexivity.
  - intros [H | H]; rewrite H; simpl;
      destruct (libkv_NewStore _ _); discriminate.
Qed.

(** A connection string that does not parse fails with the wrapped error
    of the parser, never with [ErrUnsupportedStore]. *)
Lemma New_parse_error (cfg : config.BalancerConfig) (err : error) :
  url_Parse (config.StoreAddress cfg) = Err err ->
  New url_Parse libkv_NewStore cfg = Err (ErrWrap err "error paring store address").
Proof. intros H. unfold New. now rewrite H. Qed.

End Construction.

Lemma C9_witness :
  store.New split_scheme empty_backend (config.mkBalancerConfig "http://127.0.0.1:8500" [])
    = Err ErrUnsupportedStore /\
  store.New split_scheme empty_backend cfg0 <> Err ErrUnsupportedStore.
Proof.
  split.
  - apply (C9_New_unsupported_scheme split_scheme empty_backend
             (config.mkBalancerConfig "http://127.0.0.1:8500" [])
             (url.mkURL "http" "127.0.0.1:8500")).
    + vm_compute. reflexivity.
    + discriminate.
    + discriminate.
  - apply (C9_New_unsupported_scheme split_scheme empty_backend cfg0
             (url.mkURL "consul" "127.0.0.1:8500")).
    + vm_compute. reflexivity.
    + left. reflexivity.
Defined.

(** * Further properties of the allocator *)
Section AllocatorOutcomes.

Import ipam.

Lemma append_nonempty x c y : x +:+ String c y <> "".
Proof. destruct x; intros H; cbv [String.append] in H; discriminate H. Qed.

Lemma IP_String_nonempty a : ipaddr.IP_String a <> "".
Proof. unfold ipaddr.IP_String. apply append_nonempty. Qed.

Lemma AllocateVIP_exhausted_after i s :
  Forall (assigned (state_ i)) (after_cursor (rangeCursor i)) ->
  AllocateVIP i s =
  Some (mkIpam (at_end (rangeCursor i)) (state_ i) (config_ i), s, Some ErrNoVipAvailable).
Proof.
  destruct i as [[f r k] st cfg]. unfold AllocateVIP, after_cursor.
  cbn [rangeCursor state_ config_ ipaddr.range_rest ipaddr.addresses ipaddr.range_first
       ipaddr.cur drop].
  intros Hall. apply AllocateVIP_loop_exhausted; [exact Hall|].
  rewrite length_drop. lia.
Qed.

(** [AllocateVIP] always returns, and with one of two results: nil or
    [ErrNoVipAvailable].  The error of [Set] is dropped and no other error
    can come out. *)
Theorem AllocateVIP_outcomes i s :
  exists i' s' res,
    AllocateVIP i s = Some (i', s', res) /\ (res = None \/ res = Some ErrNoVipAvailable).
Proof.
  destruct (AllocateVIP_returns i s) as [[[i' s'] res] H].
  exists i', s', res. split; [exact H|].
  apply AllocateVIP_inv in H as [(-> & _) | (-> & _)]; auto.
Qed.

(** [AllocateVIP] only moves the cursor and writes [Host]: the range, the
    snapshot and the configuration of the allocator are kept, and so is
    every other field of the service. *)
Theorem AllocateVIP_moves_cursor_only i s i' s' res :
  AllocateVIP i s = Some (i', s', res) ->
  ipaddr.addresses (rangeCursor i') = ipaddr.addresses (rangeCursor i) /\
  state_ i' = state_ i /\ config_ i' = config_ i /\
  ID s' = ID s /\ Port s' = Port s /\ Protocol s' = Protocol s /\
  Scheduler s' = Scheduler s.
Proof.
  intros H.
  apply AllocateVIP_inv in H
    as [(_ & -> & -> & _) | (_ & before & a & after & _ & _ & _ & -> & ->)];
    repeat split.
Qed.

Lemma AllocateVIP_moves_cursor_only_witness :
  exists i' s',
    AllocateVIP alloc_one_taken new_svc = Some (i', s', None) /\
    ipaddr.addresses (rangeCursor i') = ipaddr.addresses (rangeCursor alloc_one_taken) /\
    ID s' = "web" /\ Port s' = 80.
Proof.
  exists alloc_one_taken, (set_Host new_svc "10.0.0.2").
  assert (H : AllocateVIP alloc_one_taken new_svc =
              Some (alloc_one_taken, set_Host new_svc "10.0.0.2", None))
    by (vm_compute; reflexivity).
  split; [exact H|].
  destruct (AllocateVIP_moves_cursor_only _ _ _ _ _ H) as (Hr & _ & _ & Hid & Hport & _).
  split; [exact Hr|]. split; [exact Hid | exact Hport].
Defined.

(** [AllocateVIP] fails only on an exhausted range: when it returns
    [ErrNoVipAvailable], every address after the position of the cursor is
    the [Host] of a service of the snapshot. *)
Theorem AllocateVIP_fails_only_when_exhausted i s i' s' :
  AllocateVIP i s = Some (i', s', Some ErrNoVipAvailable) ->
  forall a, a ∈ after_cursor (rangeCursor i) ->
  exists svc, svc ∈ state.GetServices (state_ i) /\ Host svc = ipaddr.IP_String a.
Proof.
  intros H a Ha.
  apply AllocateVIP_inv in H as [(_ & _ & _ & Hall) | (Hres & _)]; [|discriminate].
  rewrite Forall_forall in Hall. exact (Hall a Ha).
Qed.

Lemma AllocateVIP_fails_only_when_exhausted_witness :
  exists svc, svc ∈ state.GetServices (state_ alloc_full) /\ Host svc = "10.0.0.3".
Proof.
  destruct (AllocateVIP alloc_full new_svc) as [[[i' s'] [[| | |]|]]|] eqn:H;
    try (vm_compute in H; discriminate H).
  apply (AllocateVIP_fails_only_when_exhausted alloc_full new_svc i' s' H (ip4 10 0 0 3)).
  cbn. set_solver.
Defined.

Lemma AllocateVIP_failure_repeats_witness :
  exists stale,
    AllocateVIP alloc_full new_svc = Some (stale, new_svc, Some ErrNoVipAvailable) /\
    AllocateVIP (with_state stale released) new_svc =
      Some (with_state stale released, new_svc, Some ErrNoVipAvailable).
Proof.
  destruct (AllocateVIP alloc_full new_svc) as [[[i' s'] [e|]]|] eqn:H;
    try (vm_compute in H; discriminate H).
  exists i'. split.
  - vm_compute in H. injection H as <- <- <-. reflexivity.
  - exact (AllocateVIP_failure_repeats alloc_full new_svc i' s' e released new_svc H).
Defined.

(** A range of a single address never yields a VIP: the only address is
    the position of the cursor, and [AllocateVIP] returns
    [ErrNoVipAvailable] whatever the snapshot, the empty one included. *)
Theorem AllocateVIP_single_address first k st cfg s :
  AllocateVIP (mkIpam (ipaddr.mkCursor first [] k) st cfg) s =
  Some (mkIpam (ipaddr.mkCursor first [] k) st cfg, s, Some ErrNoVipAvailable).
Proof. destruct k; reflexivity. Qed.

(** Services that have no VIP yet (an empty [Host]) take no address: on a
    snapshot made of such services only, [AllocateVIP] assigns the address
    right after the position of the cursor. *)
Theorem AllocateVIP_unallocated_services_take_nothing i s a after :
  (forall svc, svc ∈ state.GetServices (state_ i) -> Host svc = "") ->
  after_cursor (rangeCursor i) = a :: after ->
  AllocateVIP i s =
  Some (mkIpam (at_start (rangeCursor i)) (state_ i) (config_ i),
        set_Host s (ipaddr.IP_String a), None).
Proof.
  intros Hempty Hd.
  apply (AllocateVIP_scan i s [] a after); [exact Hd | constructor |].
  intros (svc & Hin & Hhost). rewrite (Hempty svc Hin) in Hhost.
  symmetry in Hhost. exact (IP_String_nonempty a Hhost).
Qed.

Lemma AllocateVIP_unallocated_services_take_nothing_witness :
  AllocateVIP (with_state alloc_empty unallocated) new_svc =
  Some (with_state alloc_empty unallocated, set_Host new_svc "10.0.0.1", None).
Proof.
  apply (AllocateVIP_unallocated_services_take_nothing
           (with_state alloc_empty unallocated) new_svc (ip4 10 0 0 1) [ip4 10 0 0 2]).
  - intros svc Hin. cbn in Hin.
    repeat (apply elem_of_cons in Hin as [-> | Hin]; [reflexivity|]).
    inversion Hin.
  - reflexivity.
Defined.

(** The outcome of [AllocateVIP] does not depend on the service it is
    called for: on the same allocator, a call for another service leaves
    the same cursor, returns the same error and, on success, assigns the
    same address. *)
Theorem AllocateVIP_service_independent i s1 s2 i1 s1' res :
  AllocateVIP i s1 = Some (i1, s1', res) ->
  AllocateVIP i s2 =
  Some (i1, match res with None => set_Host s2 (Host s1') | Some _ => s2 end, res).
Proof.
  intros H.
  apply AllocateVIP_inv in H
    as [(-> & _ & -> & Hall) | (-> & before & a & after & Hd & Hall & Hfree & -> & ->)].
  - now apply AllocateVIP_exhausted_after.
  - apply (AllocateVIP_scan i s2 before a after); assumption.
Qed.

Lemma AllocateVIP_service_independent_witness :
  AllocateVIP alloc_one_taken (svc_on "other" (ip4 192 168 0 7)) =
  Some (alloc_one_taken, set_Host (svc_on "other" (ip4 192 168 0 7)) "10.0.0.2", None).
Proof.
  apply (AllocateVIP_service_independent alloc_one_taken new_svc
           (svc_on "other" (ip4 192 168 0 7)) alloc_one_taken
           (set_Host new_svc "10.0.0.2") None).
  vm_compute. reflexivity.
Defined.

(** [ipIsAssigned] is membership of the string among the [Host] fields of
    the snapshot: true exactly when some service has it as [Host], false
    exactly when none has. *)
Theorem ipIsAssigned_iff e st :
  (ipIsAssigned e st = true <->
   exists svc, svc ∈ state.GetServices st /\ Host svc = e) /\
  (ipIsAssigned e st = false <->
   forall svc, svc ∈ state.GetServices st -> Host svc <> e).
Proof.
  pose proof (ipIsAssigned_range_true e (state.GetServices st)) as Htrue.
  split; [exact Htrue|]. unfold ipIsAssigned.
  destruct (ipIsAssigned_range e (state.GetServices st)).
  - split; [discriminate|]. intros Hnone.
    destruct (proj1 Htrue eq_refl) as (svc & Hin & Heq). destruct (Hnone svc Hin Heq).
  - split; [|reflexivity]. intros _ svc Hin Heq.
    assert (false = true) by (apply Htrue; exists svc; auto). discriminate.
Qed.

(** An allocator made by [New] hands out addresses of the first configured
    range only, and never the first address of that range: the address of
    a successful [AllocateVIP] is one of those after it. *)
Theorem New_allocates_in_first_range prefix_addresses st cfg range0 more first rest
  i s i' s' :
  config.Ipam_Ranges cfg = range0 :: more ->
  prefix_addresses range0 = Ok (first, rest) ->
  New prefix_addresses st cfg = Some (Ok i) ->
  AllocateVIP i s = Some (i', s', None) ->
  exists a, a ∈ rest /\ Host s' = ipaddr.IP_String a /\
            forall svc, svc ∈ state.GetServices st -> Host svc <> ipaddr.IP_String a.
Proof.
  intros Hranges Hparse Hnew H. unfold New, ipaddr.Parse in Hnew.
  rewrite Hranges, Hparse in Hnew. inversion Hnew; subst i. clear Hnew.
  apply AllocateVIP_inv in H
    as [(Hres & _) | (_ & before & a & after & Hd & _ & Hfree & -> & _)];
    [discriminate|].
  exists a. change (rest = before ++ a :: after) in Hd. repeat split.
  - rewrite Hd. apply elem_of_app. right. left.
  - intros svc Hin Heq. apply Hfree. exists svc. split; assumption.
Qed.

Lemma New_allocates_in_first_range_witness :
  exists a, a ∈ [ip4 10 0 0 1; ip4 10 0 0 2; ip4 10 0 0 3] /\
            "10.0.0.1" = ipaddr.IP_String a.
Proof.
  destruct (New_allocates_in_first_range slash30 (state.mkState [])
              (config.mkBalancerConfig "consul://127.0.0.1:8500" ["10.0.0.0/30"; "10.9.0.0/30"])
              "10.0.0.0/30" ["10.9.0.0/30"] (ip4 10 0 0 0)
              [ip4 10 0 0 1; ip4 10 0 0 2; ip4 10 0 0 3]
              _ new_svc _ (set_Host new_svc "10.0.0.1")
              eq_refl eq_refl eq_refl eq_refl) as (a & Hin & Hhost & _).
  exists a. split; [exact Hin | exact Hhost].
Defined.

End AllocatorOutcomes.

(** * Further properties of the store *)
Section StoreOperations.

Import store.

Context {codec_Service : json.Codec Service}.
Context {codec_Destination : json.Codec Destination}.
Context {codec_CheckSpec : json.Codec CheckSpec}.

Lemma append_cons x a b : String x a +:+ b = String x (a +:+ b).
Proof. reflexivity. Qed.

Lemma append_assoc a b c : (a +:+ b) +:+ c = a +:+ b +:+ c.
Proof.
  induction a as [|x a IH]; [reflexivity|].
  rewrite !append_cons. now rewrite IH.
Qed.

Lemma append_length a b :
  String.length (a +:+ b) = (String.length a + String.length b)%nat.
Proof.
  induction a as [|x a IH]; [reflexivity|].
  rewrite append_cons. simpl. now rewrite IH.
Qed.

Lemma append_nil_r a : a +:+ "" = a.
Proof.
  induction a as [|x a IH]; [reflexivity|].
  rewrite append_cons. now rewrite IH.
Qed.

Lemma append_inj_l p a b : p +:+ a = p +:+ b -> a = b.
Proof.
  induction p as [|x p IH]; intros H; [exact H|].
  rewrite !append_cons in H. injection H as H. auto.
Qed.

Lemma append_inj_r c : forall a b, a +:+ c = b +:+ c -> a = b.
Proof.
  induction a as [|x a IH]; intros [|y b] H.
  - reflexivity.
  - apply (f_equal String.length) in H. rewrite append_cons in H. simpl in H.
    rewrite !append_length in H. simpl in H. lia.
  - apply (f_equal String.length) in H. rewrite append_cons in H. simpl in H.
    rewrite !append_length in H. simpl in H. lia.
  - rewrite !append_cons in H. injection H as -> H. f_equal. now apply IH.
Qed.

(** No key of the services tree lies under a key of the destinations
    tree. *)
Lemma destinations_services_apart rest k :
  String.prefix "fusis/services/" k = true ->
  String.prefix ("fusis/destinations/" +:+ rest) k = false.
Proof. intros H. apply prefix_split in H as [q ->]. reflexivity. Qed.

Lemma DeleteDestination_entries s svc dst s' :
  DeleteDestination s svc dst = (s', None) ->
  kv.entries (kv_ s') =
  filter (fun p => String.prefix
                     ("fusis/destinations/" +:+ GetId svc +:+ "/" +:+ Destination_GetId dst)
                     p.1 = false)
    (kv.entries (kv_ s)).
Proof.
  unfold DeleteDestination, wrap_kv, kv.DeleteTree.
  destruct (kv.fault (kv_ s)); intros H; inversion H. reflexivity.
Qed.

Lemma AddCheck_key s id spec s' :
  AddCheck s id spec = (s', None) ->
  exists value, json.Marshal spec = Ok value /\
    kv.entries (kv_ s') =
    <["fusis/checks/" +:+ ServiceID spec +:+ "/" +:+ id := value]> (kv.entries (kv_ s)).
Proof.
  unfold AddCheck, wrap_kv, kv.Put.
  destruct (json.Marshal spec) as [value|e]; [|discriminate].
  destruct (kv.fault (kv_ s)); intros H; inversion H. exists value. split; reflexivity.
Qed.


(** After a successful [AddService] the key
    [fusis/services/{ID}/config] holds the encoding of the service, and
    every other key holds what it held. *)
Theorem AddService_lookup s svc s' :
  AddService s svc = (s', None) ->
  exists value,
    json.Marshal svc = Ok value /\
    kv.entries (kv_ s') !! ("fusis/services/" +:+ GetId svc +:+ "/config") = Some value /\
    forall k, k <> "fusis/services/" +:+ GetId svc +:+ "/config" ->
              kv.entries (kv_ s') !! k = kv.entries (kv_ s) !! k.
Proof.
  intros H. apply AddService_key in H as (value & Hm & ->).
  exists value. split; [exact Hm|]. split.
  - apply lookup_insert_eq.
  - intros k Hk. now apply lookup_insert_ne.
Qed.

(** Services with different IDs never share a config key: after two
    successful adds, both encodings are in the store. *)
Theorem AddService_distinct_ids_coexist s a b s1 s2 :
  AddService s a = (s1, None) ->
  AddService s1 b = (s2, None) ->
  GetId a <> GetId b ->
  exists va vb,
    json.Marshal a = Ok va /\ json.Marshal b = Ok vb /\
    kv.entries (kv_ s2) !! ("fusis/services/" +:+ GetId a +:+ "/config") = Some va /\
    kv.entries (kv_ s2) !! ("fusis/services/" +:+ GetId b +:+ "/config") = Some vb.
Proof.
  intros Ha Hb Hne.
  apply AddService_key in Ha as (va & Hma & Hea).
  apply AddService_key in Hb as (vb & Hmb & Heb).
  exists va, vb. repeat split; trivial; rewrite Heb.
  - rewrite lookup_insert_ne.
    + rewrite Hea. apply lookup_insert_eq.
    + intros Heq. apply append_inj_l in Heq. apply append_inj_r in Heq. now apply Hne.
  - apply lookup_insert_eq.
Qed.

(** Adding a service again under the same ID replaces its entry: the store
    is as if only the second add had happened. *)
Theorem AddService_same_id_overwrites s a b s1 s2 :
  AddService s a = (s1, None) ->
  AddService s1 b = (s2, None) ->
  GetId a = GetId b ->
  exists vb,
    json.Marshal b = Ok vb /\
    kv.entries (kv_ s2) =
    <["fusis/services/" +:+ GetId b +:+ "/config" := vb]> (kv.entries (kv_ s)).
Proof.
  intros Ha Hb Heq.
  apply AddService_key in Ha as (va & Hma & Hea).
  apply AddService_key in Hb as (vb & Hmb & Heb).
  exists vb. split; [exact Hmb|].
  rewrite Heb, Hea, Heq. apply insert_insert_eq.
Qed.

(** [AddCheck] keys an entry by the random id, not by the content: the
    same spec added under two different ids gives two entries with the
    same encoding. *)
Theorem AddCheck_same_spec_twice s spec id1 id2 s1 s2 :
  AddCheck s id1 spec = (s1, None) ->
  AddCheck s1 id2 spec = (s2, None) ->
  id1 <> id2 ->
  exists value,
    json.Marshal spec = Ok value /\
    kv.entries (kv_ s2) !! ("fusis/checks/" +:+ ServiceID spec +:+ "/" +:+ id1) = Some value /\
    kv.entries (kv_ s2) !! ("fusis/checks/" +:+ ServiceID spec +:+ "/" +:+ id2) = Some value.
Proof.
  intros H1 H2 Hne.
  apply AddCheck_key in H1 as (v1 & Hm1 & He1).
  apply AddCheck_key in H2 as (v2 & Hm2 & He2).
  assert (v2 = v1) as -> by congruence.
  exists v1. repeat split; trivial; rewrite He2.
  - rewrite lookup_insert_ne.
    + rewrite He1. apply lookup_insert_eq.
    + intros Heq. do 3 apply append_inj_l in Heq. now apply Hne.
  - apply lookup_insert_eq.
Qed.

(** Destination keys join the two IDs with a slash and escape nothing: the
    destination [z] of the service [x/y] and the destination [y/z] of the
    service [x] have one and the same key, so adding the second replaces
    the entry of the first. *)
Theorem AddDestination_slash_collision s x y z svc1 dst1 svc2 dst2 s1 s2 :
  GetId svc1 = x +:+ "/" +:+ y -> Destination_GetId dst1 = z ->
  GetId svc2 = x -> Destination_GetId dst2 = y +:+ "/" +:+ z ->
  AddDestination s svc1 dst1 = (s1, None) ->
  AddDestination s1 svc2 dst2 = (s2, None) ->
  exists v2,
    json.Marshal dst2 = Ok v2 /\
    kv.entries (kv_ s2) =
    <["fusis/destinations/" +:+ x +:+ "/" +:+ y +:+ "/" +:+ z := v2]> (kv.entries (kv_ s)).
Proof.
  intros Hs1 Hd1 Hs2 Hd2 H1 H2.
  apply AddDestination_key in H1 as (v1 & Hm1 & He1).
  apply AddDestination_key in H2 as (v2 & Hm2 & He2).
  exists v2. split; [exact Hm2|].
  rewrite He2, He1, Hs1, Hd1, Hs2, Hd2.
  rewrite (append_assoc x ("/" +:+ y) ("/" +:+ z)).
  change (("/" +:+ y) +:+ "/" +:+ z) with ("/" +:+ y +:+ "/" +:+ z).
  apply insert_insert_eq.
Qed.

(** After a successful [DeleteDestination] no key under
    [fusis/destinations/{service ID}/{destination ID}] is left, every key
    of the services tree holds what it held, and so does every key that
    does not extend the deleted one. *)
Theorem DeleteDestination_scope s svc dst s' :
  DeleteDestination s svc dst = (s', None) ->
  kv.entries (kv_ s') !!
    ("fusis/destinations/" +:+ GetId svc +:+ "/" +:+ Destination_GetId dst) = None /\
  (forall k, String.prefix "fusis/services/" k = true ->
             kv.entries (kv_ s') !! k = kv.entries (kv_ s) !! k) /\
  (forall k, String.prefix
               ("fusis/destinations/" +:+ GetId svc +:+ "/" +:+ Destination_GetId dst) k
             = false ->
             kv.entries (kv_ s') !! k = kv.entries (kv_ s) !! k).
Proof.
  intros H. apply DeleteDestination_entries in H.
  assert (Hkeep : forall k,
    String.prefix ("fusis/destinations/" +:+ GetId svc +:+ "/" +:+ Destination_GetId dst) k
    = false -> kv.entries (kv_ s') !! k = kv.entries (kv_ s) !! k).
  { intros k Hk. rewrite H, map_lookup_filter.
    destruct (kv.entries (kv_ s) !! k) as [v|]; simpl; [|reflexivity].
    now rewrite option_guard_True. }
  split; [|split; [|exact Hkeep]].
  - rewrite H. apply map_lookup_filter_None. right. intros v _ Hf.
    pose proof (prefix_append
      ("fusis/destinations/" +:+ GetId svc +:+ "/" +:+ Destination_GetId dst) "") as Hp.
    rewrite append_nil_r in Hp.
    change (String.prefix
              ("fusis/destinations/" +:+ GetId svc +:+ "/" +:+ Destination_GetId dst)
              ("fusis/destinations/" +:+ GetId svc +:+ "/" +:+ Destination_GetId dst)
            = false) in Hf.
    rewrite Hp in Hf. discriminate Hf.
  - intros k Hk. apply Hkeep. now apply destinations_services_apart.
Qed.

End StoreOperations.

Section StoreComposition.

Import store.

Context {codec_Service : json.Codec Service}.
Context {codec_Destination : json.Codec Destination}.
Context {codec_CheckSpec : json.Codec CheckSpec}.

(** A destination that has been added and is then deleted is gone, and
    every key outside the subtree of its key holds what it held before
    the add. *)
Theorem AddDestination_then_DeleteDestination s svc dst s1 s2 :
  AddDestination s svc dst = (s1, None) ->
  DeleteDestination s1 svc dst = (s2, None) ->
  kv.entries (kv_ s2) !!
    ("fusis/destinations/" +:+ GetId svc +:+ "/" +:+ Destination_GetId dst) = None /\
  (forall k, String.prefix
               ("fusis/destinations/" +:+ GetId svc +:+ "/" +:+ Destination_GetId dst) k
             = false ->
             kv.entries (kv_ s2) !! k = kv.entries (kv_ s) !! k).
Proof.
  intros Hadd Hdel.
  apply AddDestination_key in Hadd as (value & _ & Hput).
  apply DeleteDestination_entries in Hdel.
  pose proof (prefix_append
    ("fusis/destinations/" +:+ GetId svc +:+ "/" +:+ Destination_GetId dst) "") as Hp.
  rewrite append_nil_r in Hp.
  split.
  - rewrite Hdel. apply map_lookup_filter_None. right. intros v _ Hf.
    change (String.prefix
              ("fusis/destinations/" +:+ GetId svc +:+ "/" +:+ Destination_GetId dst)
              ("fusis/destinations/" +:+ GetId svc +:+ "/" +:+ Destination_GetId dst)
            = false) in Hf.
    rewrite Hp in Hf. discriminate Hf.
  - intros k Hk. rewrite Hdel, map_lookup_filter, Hput.
    assert (Hne : "fusis/destinations/" +:+ GetId svc +:+ "/" +:+ Destination_GetId dst <> k)
      by (intros <-; rewrite Hp in Hk; discriminate Hk).
    rewrite lookup_insert_ne by exact Hne.
    destruct (kv.entries (kv_ s) !! k) as [v|]; simpl; [|reflexivity].
    now rewrite option_guard_True.
Qed.

(** A service that has been added and is then deleted has no config entry
    left, and every key outside the subtree [fusis/services/{ID}] holds
    what it held before the add. *)
Theorem AddService_then_DeleteService s svc s1 s2 :
  AddService s svc = (s1, None) ->
  DeleteService s1 svc = (s2, None) ->
  kv.entries (kv_ s2) !! ("fusis/services/" +:+ GetId svc +:+ "/config") = None /\
  (forall k, String.prefix ("fusis/services/" +:+ GetId svc) k = false ->
             kv.entries (kv_ s2) !! k = kv.entries (kv_ s) !! k).
Proof.
  intros Hadd Hdel.
  apply AddService_key in Hadd as (value & _ & Hput).
  apply DeleteService_entries in Hdel.
  pose proof (prefix_append ("fusis/services/" +:+ GetId svc) "/config") as Hp.
  rewrite append_assoc in Hp.
  split.
  - rewrite Hdel. apply map_lookup_filter_None. right. intros v _ Hf.
    change (String.prefix ("fusis/services/" +:+ GetId svc)
              ("fusis/services/" +:+ GetId svc +:+ "/config") = false) in Hf.
    rewrite Hp in Hf. discriminate Hf.
  - intros k Hk. rewrite Hdel, map_lookup_filter, Hput.
    assert (Hne : "fusis/services/" +:+ GetId svc +:+ "/config" <> k)
      by (intros <-; rewrite Hp in Hk; discriminate Hk).
    rewrite lookup_insert_ne by exact Hne.
    destruct (kv.entries (kv_ s) !! k) as [v|]; simpl; [|reflexivity].
    now rewrite option_guard_True.
Qed.

(** The sends of a run of a watch loop: one broadcast per batch, in the
    order of the batches, each to every registered channel in
    registration order and each made of the entries of its own batch
    only. *)
Lemma WatchServices_sends (s : FusisStore) (events : list (list kv.KVPair)) :
  WatchServices s events =
  concat (map (fun entries =>
                 map (fun ch => Send ch
                        (map (fun p => fst (json.Unmarshal (kv.Value p) zero_Service)) entries))
                     (servicesChannels s)) events).
Proof.
  induction events as [|entries events IH]; [reflexivity|].
  rewrite WatchServices_loop_cons, IH.
  destruct (watch_cycle_sends s entries) as [-> _].
  now rewrite broadcast_map.
Qed.

Lemma WatchDestinations_sends (s : FusisStore) (events : list (list kv.KVPair)) :
  WatchDestinations s events =
  concat (map (fun entries =>
                 map (fun ch => Send ch
                        (map (fun p => fst (json.Unmarshal (kv.Value p) zero_Destination))
                             entries))
                     (destinationChannels s)) events).
Proof.
  unfold WatchDestinations.
  induction events as [|entries events IH]; [reflexivity|].
  cbn [WatchDestinations_loop map concat]. unfold WatchDestinations_cycle.
  rewrite IH, WatchDestinations_range_map, broadcast_map. reflexivity.
Qed.

Theorem watch_loops_one_broadcast_per_batch (s : FusisStore)
  (events : list (list kv.KVPair)) :
  WatchServices s events =
    concat (map (fun entries =>
                   map (fun ch => Send ch
                          (map (fun p => fst (json.Unmarshal (kv.Value p) zero_Service))
                               entries))
                       (servicesChannels s)) events) /\
  WatchDestinations s events =
    concat (map (fun entries =>
                   map (fun ch => Send ch
                          (map (fun p => fst (json.Unmarshal (kv.Value p) zero_Destination))
                               entries))
                       (destinationChannels s)) events) /\
  length (WatchServices s events) = (length events * length (servicesChannels s))%nat /\
  length (WatchDestinations s events) = (length events * length (destinationChannels s))%nat.
Proof.
  split; [apply WatchServices_sends|]. split; [apply WatchDestinations_sends|].
  rewrite WatchServices_sends, WatchDestinations_sends. split.
  - induction events as [|entries events IH]; [reflexivity|].
    cbn [map concat length]. rewrite length_app, length_map, IH. lia.
  - induction events as [|entries events IH]; [reflexivity|].
    cbn [map concat length]. rewrite length_app, length_map, IH. lia.
Qed.

Lemma WatchServices_range_log entries : forall svcs log,
  snd (WatchServices_range entries svcs log) =
  log ++ omap (fun p => snd (json.Unmarshal (kv.Value p) zero_Service)) entries.
Proof.
  induction entries as [|p entries IH]; intros svcs log; simpl.
  - now rewrite app_nil_r.
  - destruct (json.Unmarshal (kv.Value p) zero_Service) as [svc [e|]]; simpl.
    + rewrite IH, <- app_assoc. reflexivity.
    + apply IH.
Qed.

(** [WatchServices] logs the errors of the decodes that failed, every one
    of them and nothing else, in the order of the entries. *)
Theorem WatchServices_cycle_logs_decode_errors (s : FusisStore) (entries : list kv.KVPair) :
  snd (WatchServices_cycle s [] entries) =
  omap (fun p => snd (json.Unmarshal (kv.Value p) zero_Service)) entries.
Proof.
  unfold WatchServices_cycle.
  pose proof (WatchServices_range_log entries [] []) as H.
  destruct (WatchServices_range entries [] []) as [svcs log]. exact H.
Qed.

Lemma sends_to_map {T} (ch : Chan (list T)) (v : list T) (chs : list (Chan (list T))) :
  sends_to ch (map (fun c => Send c v) chs) = registrations ch chs.
Proof.
  unfold sends_to, registrations.
  induction chs as [|c chs IH]; [reflexivity|].
  cbn [map]. rewrite !filter_cons. cbn [receiver].
  destruct (decide (chan_id c = chan_id ch)); cbn [length]; now rewrite IH.
Qed.

(** The registry keeps duplicates: a watch cycle sends its snapshot to a
    channel once for every time the channel has been subscribed, and each
    [SubscribeServices] of the channel adds one. *)
Theorem subscribed_twice_sent_twice (s : FusisStore) (ch : Chan (list Service))
  (entries : list kv.KVPair) :
  sends_to ch (fst (fst (WatchServices_cycle s [] entries))) =
    registrations ch (servicesChannels s) /\
  registrations ch (servicesChannels (SubscribeServices s ch)) =
    S (registrations ch (servicesChannels s)).
Proof.
  split.
  - destruct (watch_cycle_sends s entries) as [-> _].
    rewrite broadcast_map. apply sends_to_map.
  - unfold registrations, SubscribeServices. cbn [servicesChannels].
    rewrite filter_app, length_app, filter_cons, filter_nil.
    destruct (decide (chan_id ch = chan_id ch)); [cbn [length]; lia | contradiction].
Qed.


End StoreComposition.

(** * The registry of backends and the construction of the store *)
Section Registry.

Import store.

Variable url_Parse : string -> result url.URL.
Variable consul_New etcd_New : libkv.Initialize.
Variable initializers : gmap string libkv.Initialize.

(** With the registry that [init] has filled, every scheme that [New] lets
    through has its constructor: for consul the result is that of the
    consul constructor called on the host of the URL, for etcd that of the
    etcd constructor, the store being returned without subscribers and an
    error wrapped; the library's own error for an unknown backend never
    comes out of [New]. *)
Theorem New_dispatches_to_registered_backend (cfg : config.BalancerConfig) (u : url.URL) :
  url_Parse (config.StoreAddress cfg) = Ok u ->
  New url_Parse (libkv.NewStore (registryStores consul_New etcd_New initializers)) cfg =
  if String.eqb (url.Scheme u) "consul" then
    match consul_New [url.Host u] with
    | Ok k => Ok (mkFusisStore k [] [] [])
    | Err err => Err (ErrWrap err "Cannot create store consul")
    end
  else if String.eqb (url.Scheme u) "etcd" then
    match etcd_New [url.Host u] with
    | Ok k => Ok (mkFusisStore k [] [] [])
    | Err err => Err (ErrWrap err "Cannot create store consul")
    end
  else Err ErrUnsupportedStore.
Proof.
  intros Hparse. unfold New. rewrite Hparse. cbn zeta.
  unfold libkv.NewStore, registryStores, libkv.AddStore, kv.CONSUL, kv.ETCD.
  destruct (String.eqb_spec (url.Scheme u) "consul") as [Hc|Hc].
  - rewrite Hc. cbn [negb andb String.eqb].
    rewrite lookup_insert_ne by discriminate. now rewrite lookup_insert_eq.
  - destruct (String.eqb_spec (url.Scheme u) "etcd") as [He|He]; [|reflexivity].
    rewrite He. cbn [negb andb]. now rewrite lookup_insert_eq.
Qed.

Variable libkv_NewStore : string -> list string -> result kv.Store.

(** A store fresh from [New] has no subscriber: until a channel is
    subscribed its watch loops send nothing, whatever the batches. *)
Theorem New_store_sends_nothing {codec_Service : json.Codec Service}
  {codec_Destination : json.Codec Destination}
  (cfg : config.BalancerConfig) (s : FusisStore) (events : list (list kv.KVPair)) :
  New url_Parse libkv_NewStore cfg = Ok s ->
  WatchServices s events = [] /\ WatchDestinations s events = [].
Proof.
  unfold New. destruct (url_Parse (config.StoreAddress cfg)) as [u|e]; [|discriminate].
  destruct (negb _ && negb _); [discriminate|].
  destruct (libkv_NewStore _ _) as [k|e]; [|discriminate].
  intros H; inversion H; subst s.
  rewrite WatchServices_sends, WatchDestinations_sends. cbn [servicesChannels destinationChannels map].
  split; induction events as [|entries events IH]; cbn [map concat app]; auto.
Qed.

End Registry.

(** * The properties above on concrete stores *)


Lemma AddService_lookup_witness :
  kv.entries (store.kv_ (fst (@store.AddService (empty_object_codec Service) store_empty new_svc)))
    !! "fusis/services/web/config" = Some [x7b; x7d].
Proof.
  assert (H : @store.AddService (empty_object_codec Service) store_empty new_svc =
              (fst (@store.AddService (empty_object_codec Service) store_empty new_svc), None))
    by reflexivity.
  destruct (@AddService_lookup (empty_object_codec Service) _ _ _ H) as (value & Hm & Hl & _).
  injection Hm as <-. exact Hl.
Defined.

Lemma AddService_distinct_ids_coexist_witness :
  exists s2,
    kv.entries (store.kv_ s2) !! "fusis/services/web/config" = Some [x7b; x7d] /\
    kv.entries (store.kv_ s2) !! "fusis/services/api/config" = Some [x7b; x7d].
Proof.
  pose (c := empty_object_codec Service).
  pose (s1 := fst (@store.AddService c store_empty new_svc)).
  pose (s2 := fst (@store.AddService c s1 (mkService "api" "" 80 "tcp" "rr"))).
  exists s2.
  destruct (@AddService_distinct_ids_coexist c store_empty new_svc
              (mkService "api" "" 80 "tcp" "rr") s1 s2 eq_refl eq_refl)
    as (va & vb & Hma & Hmb & Ha & Hb); [discriminate|].
  injection Hma as <-. injection Hmb as <-. split; [exact Ha | exact Hb].
Defined.

Lemma AddService_same_id_overwrites_witness :
  exists s2,
    kv.entries (store.kv_ s2) =
    <["fusis/services/web/config" := [x7b; x7d]]> (kv.entries (store.kv_ store_empty)).
Proof.
  pose (c := empty_object_codec Service).
  pose (s1 := fst (@store.AddService c store_empty new_svc)).
  pose (s2 := fst (@store.AddService c s1 (mkService "web" "10.0.0.2" 80 "tcp" "rr"))).
  exists s2.
  destruct (@AddService_same_id_overwrites c store_empty new_svc
              (mkService "web" "10.0.0.2" 80 "tcp" "rr") s1 s2 eq_refl eq_refl eq_refl)
    as (vb & Hmb & He).
  injection Hmb as <-. exact He.
Defined.

Lemma AddCheck_same_spec_twice_witness :
  exists s2,
    kv.entries (store.kv_ s2) !! "fusis/checks/web/r1" = Some [x7b; x7d] /\
    kv.entries (store.kv_ s2) !! "fusis/checks/web/r2" = Some [x7b; x7d].
Proof.
  pose (c := empty_object_codec CheckSpec).
  pose (s1 := fst (@store.AddCheck c store_empty "r1" (mkCheckSpec "web"))).
  pose (s2 := fst (@store.AddCheck c s1 "r2" (mkCheckSpec "web"))).
  exists s2.
  destruct (@AddCheck_same_spec_twice c store_empty (mkCheckSpec "web") "r1" "r2" s1 s2
              eq_refl eq_refl) as (v & Hm & H1 & H2); [discriminate|].
  injection Hm as <-. split; [exact H1 | exact H2].
Defined.

Lemma AddDestination_slash_collision_witness :
  exists s2,
    kv.entries (store.kv_ s2) =
    <["fusis/destinations/a/b/c" := [x7b; x7d]]> (kv.entries (store.kv_ store_empty)).
Proof.
  pose (c := empty_object_codec Destination).
  pose (s1 := fst (@store.AddDestination c store_empty (mkService "a/b" "" 80 "tcp" "rr")
                     (mkDestination "c"))).
  pose (s2 := fst (@store.AddDestination c s1 (mkService "a" "" 80 "tcp" "rr")
                     (mkDestination "b/c"))).
  exists s2.
  destruct (@AddDestination_slash_collision c store_empty "a" "b" "c"
              (mkService "a/b" "" 80 "tcp" "rr") (mkDestination "c")
              (mkService "a" "" 80 "tcp" "rr") (mkDestination "b/c") s1 s2
              eq_refl eq_refl eq_refl eq_refl eq_refl eq_refl) as (v2 & Hm & He).
  injection Hm as <-. exact He.
Defined.

Lemma DeleteDestination_scope_witness :
  exists s',
    store.DeleteDestination store_web new_svc (mkDestination "d1") = (s', None) /\
    kv.entries (store.kv_ s') !! "fusis/destinations/web/d1" = None /\
    kv.entries (store.kv_ s') !! "fusis/services/web/config" = Some [x7b; x7d].
Proof.
  pose (s' := fst (store.DeleteDestination store_web new_svc (mkDestination "d1"))).
  assert (H : store.DeleteDestination store_web new_svc (mkDestination "d1") = (s', None))
    by (vm_compute; reflexivity).
  exists s'. split; [exact H|].
  destruct (DeleteDestination_scope store_web new_svc (mkDestination "d1") s' H)
    as (Hgone & Hsvc & _).
  split; [exact Hgone|].
  rewrite (Hsvc "fusis/services/web/config" eq_refl). vm_compute. reflexivity.
Defined.

Lemma AddDestination_then_DeleteDestination_witness :
  exists s2,
    kv.entries (store.kv_ s2) !! "fusis/destinations/web/d2" = None /\
    kv.entries (store.kv_ s2) !! "fusis/destinations/web/d1" = Some [x7b; x7d].
Proof.
  pose (c := empty_object_codec Destination).
  pose (s1 := fst (@store.AddDestination c store_web new_svc (mkDestination "d2"))).
  pose (s2 := fst (store.DeleteDestination s1 new_svc (mkDestination "d2"))).
  assert (H1 : @store.AddDestination c store_web new_svc (mkDestination "d2") = (s1, None))
    by reflexivity.
  assert (H2 : store.DeleteDestination s1 new_svc (mkDestination "d2") = (s2, None))
    by (vm_compute; reflexivity).
  exists s2.
  destruct (@AddDestination_then_DeleteDestination c store_web new_svc (mkDestination "d2")
              s1 s2 H1 H2) as (Hgone & Hkeep).
  split; [exact Hgone|].
  rewrite (Hkeep "fusis/destinations/web/d1" eq_refl). vm_compute. reflexivity.
Defined.

Lemma AddService_then_DeleteService_witness :
  exists s2,
    kv.entries (store.kv_ s2) !! "fusis/services/api/config" = None /\
    kv.entries (store.kv_ s2) !! "fusis/services/web/config" = Some [x7b; x7d].
Proof.
  pose (c := empty_object_codec Service).
  pose (api := mkService "api" "" 80 "tcp" "rr").
  pose (s1 := fst (@store.AddService c store_web api)).
  pose (s2 := fst (store.DeleteService s1 api)).
  assert (H1 : @store.AddService c store_web api = (s1, None)) by reflexivity.
  assert (H2 : store.DeleteService s1 api = (s2, None)) by (vm_compute; reflexivity).
  exists s2.
  destruct (@AddService_then_DeleteService c store_web api s1 s2 H1 H2) as (Hgone & Hkeep).
  split; [exact Hgone|].
  rewrite (Hkeep "fusis/services/web/config" eq_refl). vm_compute. reflexivity.
Defined.

Lemma New_dispatches_to_registered_backend_witness :
  store.New split_scheme
    (libkv.NewStore (store.registryStores (empty_backend "consul")
                       (fun _ => Err (ErrExternal "connection refused")) ∅))
    cfg0 = Ok store_empty /\
  store.New split_scheme
    (libkv.NewStore (store.registryStores (empty_backend "consul")
                       (fun _ => Err (ErrExternal "connection refused")) ∅))
    (config.mkBalancerConfig "etcd://127.0.0.1:2379" []) =
  Err (ErrWrap (ErrExternal "connection refused") "Cannot create store consul").
Proof.
  split.
  - exact (New_dispatches_to_registered_backend split_scheme (empty_backend "consul")
             (fun _ => Err (ErrExternal "connection refused")) ∅ cfg0
             (url.mkURL "consul" "127.0.0.1:8500") eq_refl).
  - exact (New_dispatches_to_registered_backend split_scheme (empty_backend "consul")
             (fun _ => Err (ErrExternal "connection refused")) ∅
             (config.mkBalancerConfig "etcd://127.0.0.1:2379" [])
             (url.mkURL "etcd" "127.0.0.1:2379") eq_refl).
Defined.

Lemma New_store_sends_nothing_witness :
  @store.WatchServices (empty_object_codec Service) store_empty
    [[kv.mkKVPair "fusis/services/web/config" [x7b; x7d]]] = [].
Proof.
  destruct (@New_store_sends_nothing split_scheme empty_backend
              (empty_object_codec Service) (empty_object_codec Destination)
              cfg0 store_empty [[kv.mkKVPair "fusis/services/web/config" [x7b; x7d]]] eq_refl)
    as [H _].
  exact H.
Defined.
